(** * Elevate: analytics and scoring core

    A shallow embedding of the scoring code of the Elevate study dashboard
    ([gamification.py], [utils.py], [ml_analyzer.py]) together with the
    properties its specification states about it.

    Conventions of the embedding.
    - Python integers are [Z]; calendar dates are [Z] day numbers, so that
      [d - 1] is the day before [d].
    - A finite Python float is the rational number it denotes ([Q]); every
      arithmetic operation is the exact operation followed by IEEE-754
      binary64 rounding to nearest, ties to even ([Binary64.RN]).  An
      operation whose rounded result leaves the finite range yields [None].
    - A pandas frame is the list of its rows, in frame order.
    - [datetime.now().date()] is an explicit argument [today]. *)

From Stdlib Require Import ZArith QArith Qround Qabs Qpower Qreduction Qminmax.
From Stdlib Require Import Lqa Lia List Bool String DecimalString.
From Stdlib Require Qcanon.
From Stdlib Require Import Sorted Permutation.
From Stdlib Require Import PrimFloat SpecFloat FloatOps.
From Stdlib Require Uint63.
Import ListNotations.

(* ================================================================== *)
(** * Part I: the embedding                                            *)
(* ================================================================== *)

(** ** Binary64 arithmetic on rationals *)

Module Binary64.
Open Scope Q_scope.

Definition pow2 (e : Z) : Q := Qpower 2 e.

(** Nearest integer, ties to the even one. *)
Definition rne (x : Q) : Z :=
  let f := Qfloor x in
  match Qcompare (x - inject_Z f) (1#2) with
  | Lt => f
  | Gt => (f + 1)%Z
  | Eq => if Z.even f then f else (f + 1)%Z
  end.

(** [mag x] is the binary exponent of [x]: [2^mag x <= |x| < 2^(mag x + 1)]
    for [x] other than zero. *)
Definition mag (x : Q) : Z :=
  let k := (Z.log2 (Z.abs (Qnum x)) - Z.log2 (Zpos (Qden x)))%Z in
  if Qle_bool (pow2 k) (Qabs x) then k else (k - 1)%Z.

(** Exponent of the last place of the binary64 numbers around [x]:
    53 significant bits, gradual underflow below [2^-1022]. *)
Definition ulp_exp (x : Q) : Z := Z.max (mag x - 52) (-1074).

(** Round to nearest, ties to even, with an unbounded exponent above. *)
Definition RN (x : Q) : Q :=
  let u := ulp_exp x in Qred (inject_Z (rne (x / pow2 u)) * pow2 u).

(** The rounded result of an operation, [None] when it overflows. *)
Definition fl (x : Q) : option Q :=
  let r := RN x in
  if Qle_bool (pow2 1024) (Qabs r) then None else Some r.

(** A decimal literal of the source denotes the nearest binary64 number. *)
Definition lit (q : Q) : Q := RN q.

Definition bind {A B : Type} (m : option A) (k : A -> option B) : option B :=
  match m with
  | Some a => k a
  | None => None
  end.

(** [float(n)] for a Python integer: [None] is [OverflowError]. *)
Definition of_int (n : Z) : option Q := fl (inject_Z n).

Definition mul (x y : Q) : option Q := fl (x * y).
Definition add (x y : Q) : option Q := fl (x + y).
Definition sub (x y : Q) : option Q := fl (x - y).
Definition div (x y : Q) : option Q :=
  if Qeq_bool y 0 then None else fl (x / y).

(** [int(x)]: truncation toward zero. *)
Definition trunc (x : Q) : Z :=
  if Qle_bool 0 x then Qfloor x else Qceiling x.

(** Python's [min(a, b)] and [max(a, b)]: the first argument wins ties. *)
Definition fmin (a b : Q) : Q := if Qle_bool a b then a else b.

(** [round(x, 1)] on a float: the exact value of [x] is rounded to one
    decimal place, ties to even, and the decimal is read back as the
    nearest binary64 number. *)
Definition round1 (x : Q) : option Q := fl (inject_Z (rne (x * 10)) / 10).


(** Binary64 values that are only inspected, never computed with, range
    over the whole format. *)
Inductive float : Type :=
| Finite (x : Q)
| PosInf
| NegInf
| NaN.

(** [a < b] on floats; any comparison with [NaN] is false. *)
Definition ltb (a b : float) : bool :=
  match a, b with
  | NaN, _ | _, NaN => false
  | _, NegInf => false
  | NegInf, _ => true
  | PosInf, _ => false
  | Finite _, PosInf => true
  | Finite x, Finite y => negb (Qle_bool y x)
  end.

End Binary64.

Notation "x <- m ;; k" := (Binary64.bind m (fun x => k))
  (at level 61, m at next level, right associativity).

(** ** Rows of the frames *)

(** One row of the study log (the columns the core reads). *)
Record session : Type := mkSession {
  date : Z;
  subject : string;
  chapter : string;
  duration_minutes : Z;
  confidence_rating : Z
}.

(** One row of the expense log; amounts are exact rationals. *)
Record expense : Type := mkExpense {
  expense_date : Z;
  amount : Q
}.

(** A Python call either returns or raises an exception carrying a text. *)
Inductive result (A : Type) : Type :=
| Return (a : A)
| Raise (e : string).
Arguments Return {A} a.
Arguments Raise {A} e.

(** ** List helpers standing for [unique()] and [sorted()] *)

Module Frame.

(** [unique()]: the distinct values, in order of first appearance. *)
Fixpoint unique {A : Type} (eqb : A -> A -> bool) (l : list A) : list A :=
  match l with
  | [] => []
  | x :: t => x :: filter (fun y => negb (eqb x y)) (unique eqb t)
  end.

Fixpoint insert {A : Type} (leb : A -> A -> bool) (x : A) (l : list A) : list A :=
  match l with
  | [] => [x]
  | y :: t => if leb x y then x :: l else y :: insert leb x t
  end.

(** A stable sort: [x] comes before [y] when [leb x y]. *)
Definition sort {A : Type} (leb : A -> A -> bool) (l : list A) : list A :=
  fold_right (insert leb) [] l.

(** [sorted(dates, reverse=True)]. *)
Definition sorted_reverse (l : list Z) : list Z := sort Z.geb l.

(** [sorted(dates)]. *)
Definition sorted (l : list Z) : list Z := sort Z.leb l.

Definition sum_Z (l : list Z) : Z := fold_right Z.add 0%Z l.
Definition sum_Q (l : list Q) : Q := fold_right Qplus 0%Q l.

Definition len {A : Type} (l : list A) : Z := Z.of_nat (List.length l).

End Frame.

(** ** utils.py *)

Module Utils.
Import Frame.
Open Scope Z_scope.

(** The counting loop of [calculate_streak]:
    [for date in dates: if date == current_date: streak += 1;
     current_date -= 1 day; else: break]. *)
Fixpoint count_from (dates : list Z) (current_date streak : Z) : Z :=
  match dates with
  | [] => streak
  | date :: rest =>
      if date =? current_date
      then count_from rest (current_date - 1) (streak + 1)
      else streak
  end.

Definition calculate_streak (user_data : list session) (today : Z) : Z :=
  match user_data with
  | [] => 0
  | _ =>
      let dates := sorted_reverse (unique Z.eqb (map date user_data)) in
      match dates with
      | [] => 0
      | most_recent :: _ =>
          let yesterday := today - 1 in
          if most_recent =? today then count_from dates today 0
          else if most_recent =? yesterday then count_from dates yesterday 0
          else 0
      end
  end.

End Utils.

(** ** gamification.py: [GamificationSystem] *)

Module Gamification.
Import Frame Binary64.
Open Scope Z_scope.

Definition base_xp_per_minute : Z := 2.

(** The dictionary [{1: 0.5, 2: 0.7, 3: 1.0, 4: 1.3, 5: 1.5}]. *)
Definition confidence_multiplier (rating : Z) : option Q :=
  match rating with
  | 1 => Some (lit 0.5)
  | 2 => Some (lit 0.7)
  | 3 => Some (lit 1.0)
  | 4 => Some (lit 1.3)
  | 5 => Some (lit 1.5)
  | _ => None
  end.

(** [d.get(key, default)]. *)
Definition get {A : Type} (d : Z -> option A) (key : Z) (default : A) : A :=
  match d key with
  | Some v => v
  | None => default
  end.

Definition streak_bonus_multiplier : Q := lit 0.1.

Definition level_thresholds : list Z :=
  [0; 100; 250; 450; 700; 1000; 1400; 1850; 2350; 2900; 3500;
   4200; 5000; 5900; 6900; 8000; 9200; 10500; 12000; 13600; 15300].

(** The float [base_xp * confidence_bonus * (1 + streak_bonus)], evaluated
    left to right as Python does. *)
Definition session_product (duration_minutes confidence_rating streak_days : Z)
  : option Q :=
  let base_xp := duration_minutes * base_xp_per_minute in
  let confidence_bonus := get confidence_multiplier confidence_rating (lit 1.0) in
  s <- of_int streak_days ;;
  sb <- mul s streak_bonus_multiplier ;;
  let streak_bonus := fmin (lit 0.5) sb in
  b <- of_int base_xp ;;
  t <- mul b confidence_bonus ;;
  f <- add 1 streak_bonus ;;
  mul t f.

(** The arguments are Python integers.  [None] stands for the
    [OverflowError] Python raises when an integer does not fit a float or
    when [int()] meets an infinity. *)
Definition calculate_session_xp (duration_minutes confidence_rating streak_days : Z)
  : option Z :=
  p <- session_product duration_minutes confidence_rating streak_days ;;
  let total_xp := trunc p in
  Some (Z.max 5 total_xp).

(** The loop of [_calculate_streak_for_date] over [study_dates[1:]]. *)
Fixpoint count_back (dates : list Z) (current_date streak : Z) : Z :=
  match dates with
  | [] => streak
  | date :: rest =>
      let expected_date := current_date - 1 in
      if date =? expected_date
      then count_back rest date (streak + 1)
      else streak
  end.

Definition _calculate_streak_for_date (user_data : list session) (target_date : Z) : Z :=
  let study_dates :=
    unique Z.eqb (map date (filter (fun s => date s <=? target_date) user_data)) in
  let study_dates := sorted_reverse study_dates in
  match study_dates with
  | [] => 0
  | first :: rest =>
      if negb (first =? target_date) then 0
      else count_back rest first 1
  end.

(** The [for _, session in user_data.iterrows()] loop. *)
Fixpoint total_xp_loop (user_data rows : list session) (total_xp : Z) : option Z :=
  match rows with
  | [] => Some total_xp
  | session :: rest =>
      let streak := _calculate_streak_for_date user_data (date session) in
      session_xp <- calculate_session_xp
                      (duration_minutes session) (confidence_rating session) streak ;;
      total_xp_loop user_data rest (total_xp + session_xp)
  end.

Definition calculate_total_xp (user_data : list session) : option Z :=
  match user_data with
  | [] => Some 0
  | _ => total_xp_loop user_data user_data 0
  end.

(** [for level, threshold in enumerate(thresholds)]. *)
Fixpoint get_level_loop (thresholds : list Z) (level total_xp : Z) : Z :=
  match thresholds with
  | [] => len level_thresholds
  | threshold :: rest =>
      if total_xp <? threshold then Z.max 1 level
      else get_level_loop rest (level + 1) total_xp
  end.

Definition get_level (total_xp : Z) : Z :=
  get_level_loop level_thresholds 0 total_xp.

(** The dictionary returned by [get_level_progress]; the last two keys are
    absent at the maximum level. *)
Record level_progress : Type := mkProgress {
  current_level : Z;
  progress : Q;
  xp_to_next : Z;
  current_xp : option Z;
  required_xp : option Z
}.

(** [thresholds[i]] for an index in range. *)
Definition item (l : list Z) (i : Z) : Z := nth (Z.to_nat i) l 0.

Definition get_level_progress (total_xp : Z) : option level_progress :=
  let current_level := get_level total_xp in
  if current_level >=? len level_thresholds then
    Some (mkProgress current_level 100 0 None None)
  else
    let current_threshold :=
      if current_level >? 1 then item level_thresholds (current_level - 1) else 0 in
    let next_threshold := item level_thresholds current_level in
    let progress_xp := total_xp - current_threshold in
    let required_xp := next_threshold - current_threshold in
    q <- div (inject_Z progress_xp) (inject_Z required_xp) ;;
    progress_percentage <- mul q 100 ;;
    rounded <- round1 progress_percentage ;;
    Some (mkProgress current_level rounded (next_threshold - total_xp)
                     (Some progress_xp) (Some required_xp)).

End Gamification.

(** ** ml_analyzer.py: [MLAnalyzer] *)

Module MLAnalyzer.
Import Frame Binary64.
Open Scope string_scope.
Open Scope Z_scope.

Definition weakness_threshold : Q := lit 3.0.
Definition min_sessions_for_analysis : Z := 3.

(** *** Topic statistics *)


(** [Series.mean()] of an integer column: the float sum divided by the
    count; an empty column has no finite mean. *)
Definition mean (values : list Z) : option Q :=
  total <- of_int (sum_Z values) ;;
  count <- of_int (len values) ;;
  div total count.




Definition max_date (rows : list session) : Z :=
  fold_right Z.max (hd 0 (map date rows)) (map date rows).




(** *** Recommendations *)

(** An entry of the list built by [_identify_weak_topics]. *)
Record weak_topic : Type := mkWeak {
  weak_subject : string;
  weak_chapter : string;
  avg_confidence : float;
  total_time : float;
  sessions : Z;
  weak_trend : float;
  weakness_score : float
}.

(** The dictionaries read by [_generate_recommendations]; an absent key
    is [None]. *)
Record study_patterns : Type := mkPatterns {
  patterns_status : option string;
  most_productive_day : option string;
  avg_session_length : option float
}.

Record performance_prediction : Type := mkPrediction {
  prediction_status : option string;
  confidence_trend : option float;
  time_trend : option float
}.

Record insights : Type := mkInsights {
  insights_study_patterns : option study_patterns;
  insights_performance_prediction : option performance_prediction
}.

(** [sep.join(l)]. *)
Fixpoint join (sep : string) (l : list string) : string :=
  match l with
  | [] => ""
  | [x] => x
  | x :: t => x ++ sep ++ join sep t
  end.

Definition topic_label (t : weak_topic) : string :=
  weak_subject t ++ " - " ++ weak_chapter t.

Definition topic_advice (t : weak_topic) : list string :=
  if ltb (weak_trend t) (Finite 0) then
    [" " ++ topic_label t ++ ": Try different study methods, confidence is declining"]
  else if sessions t <? 5 then
    [" " ++ topic_label t ++ ": Needs more practice sessions"]
  else [].

Definition weakness_recommendations (weak_topics : list weak_topic) : list string :=
  match weak_topics with
  | [] => []
  | _ =>
      let top_weak := firstn 3 weak_topics in
      let topic_list := join ", " (map topic_label top_weak) in
      ("Focus on these weak areas: " ++ topic_list) :: flat_map topic_advice top_weak
  end.

Definition is_status (s : option string) (v : string) : bool :=
  match s with
  | Some x => String.eqb x v
  | None => false
  end.

Definition pattern_recommendations (ins : insights) : list string :=
  match insights_study_patterns ins with
  | Some patterns =>
      if negb (is_status (patterns_status patterns) "pattern_analysis_failed") then
        List.app
          (match most_productive_day patterns with
           | Some day =>
               ["You perform best on " ++ day
                ++ "s - consider scheduling important topics then"]
           | None => []
           end)
          (match avg_session_length patterns with
           | Some avg_length =>
               if ltb avg_length (Finite 20) then
                 ["Consider longer study sessions (20-45 minutes) for better retention"]
               else if ltb (Finite 90) avg_length then
                 ["Break down long sessions into smaller chunks with breaks"]
               else []
           | None => []
           end)
      else []
  | None => []
  end.

(** [pred['confidence_trend']] and [pred['time_trend']] raise [KeyError]
    when the key is absent. *)
Definition trend_recommendations (ins : insights) : result (list string) :=
  match insights_performance_prediction ins with
  | Some pred =>
      if is_status (prediction_status pred) "success" then
        match confidence_trend pred with
        | None => Raise "'confidence_trend'"
        | Some conf =>
            let r1 :=
              if ltb conf (Finite (- lit 0.2)) then
                ["Your confidence has been declining recently - consider reviewing fundamentals"]
              else if ltb (Finite (lit 0.2)) conf then
                ["Great progress! Your confidence is improving - keep up the momentum"]
              else [] in
            match time_trend pred with
            | None => Raise "'time_trend'"
            | Some time =>
                Return (List.app r1
                  (if ltb time (Finite (-10)) then
                     ["You've been studying less lately - try to maintain consistency"]
                   else []))
            end
        end
      else Return []
  | None => Return []
  end.

Definition general_recommendations (user_data : list session) : list string :=
  if len user_data >=? 10 then
    let recent_consistency :=
      len (filter (fun s => max_date user_data - 7 <=? date s) user_data) in
    if recent_consistency <? 3 then
      ["Try to study more consistently - aim for at least 3 sessions per week"]
    else []
  else [].

Definition diversity_recommendations (user_data : list session) : list string :=
  let subject_count := len (unique String.eqb (map subject user_data)) in
  if subject_count =? 1 then
    ["Consider diversifying your subjects to maintain engagement"]
  else if subject_count >? 5 then
    ["You're studying many subjects - ensure you're giving enough attention to each"]
  else [].

Definition _generate_recommendations
    (weak_topics : list weak_topic) (ins : insights) (user_data : list session)
  : result (list string) :=
  let recommendations := weakness_recommendations weak_topics in
  let recommendations := List.app recommendations (pattern_recommendations ins) in
  match trend_recommendations ins with
  | Raise e => Raise e
  | Return trend =>
      let recommendations := List.app recommendations trend in
      let recommendations := List.app recommendations (general_recommendations user_data) in
      let recommendations := List.app recommendations (diversity_recommendations user_data) in
      let recommendations :=
        match recommendations with
        | [] => ["Great job! No major issues detected. Keep maintaining your study routine!"]
        | _ => recommendations
        end in
      Return (firstn 6 recommendations)
  end.

(** *** [analyze_weaknesses]

    The pandas and scikit-learn stages of the analysis are parameters:
    each is any function of its inputs that returns or raises. *)

Section Analysis.

Variable topic_analysis : Type.
Variable _prepare_topic_analysis : list session -> result topic_analysis.
Variable _identify_weak_topics : topic_analysis -> result (list weak_topic).
Variable _generate_ml_insights : list session -> topic_analysis -> result insights.

Definition analysis_body (user_data : list session)
  : result (list weak_topic * list string) :=
  match _prepare_topic_analysis user_data with
  | Raise e => Raise e
  | Return stats =>
      match _identify_weak_topics stats with
      | Raise e => Raise e
      | Return weak_topics =>
          match _generate_ml_insights user_data stats with
          | Raise e => Raise e
          | Return ins =>
              match _generate_recommendations weak_topics ins user_data with
              | Raise e => Raise e
              | Return recommendations => Return (weak_topics, recommendations)
              end
          end
      end
  end.

Definition analyze_weaknesses (user_data : list session)
  : list weak_topic * list string :=
  if (len user_data =? 0) || (len user_data <? 5) then
    ([], ["Need more study sessions for accurate analysis."])
  else
    match analysis_body user_data with
    | Return r => r
    | Raise e =>
        ([], ["Analysis error: " ++ e ++ ". Please try again with more data."])
    end.

End Analysis.

(** *** [forecast_spending]

    Amounts are exact rationals here: the sums, the fit and the
    predictions are the exact values that the float computation
    approximates. *)

Record linear_model : Type := mkModel {
  coef : Q;
  intercept : Q
}.

(** [LinearRegression().fit(X, y)] with one feature: the ordinary
    least-squares line through the points [(X[i], y[i])]. *)
Definition fit (X : list Z) (y : list Q) : linear_model :=
  let n := inject_Z (len X) in
  let x_mean := (inject_Z (sum_Z X) / n)%Q in
  let y_mean := (sum_Q y / n)%Q in
  let sxx :=
    sum_Q (map (fun x => ((inject_Z x - x_mean) * (inject_Z x - x_mean))%Q) X) in
  let sxy :=
    sum_Q (map (fun p => ((inject_Z (fst p) - x_mean) * (snd p - y_mean))%Q)
               (combine X y)) in
  let slope := (sxy / sxx)%Q in
  mkModel slope (y_mean - slope * x_mean)%Q.

(** [model.predict] at one day offset. *)
Definition predict (m : linear_model) (x : Z) : Q :=
  (intercept m + coef m * inject_Z x)%Q.

(** [groupby('date')['amount'].sum()], sorted by date. *)
Definition daily_spending (expense_data : list expense) : list (Z * Q) :=
  map (fun d =>
         (d, sum_Q (map amount (filter (fun e => expense_date e =? d) expense_data))))
      (sorted (unique Z.eqb (map expense_date expense_data))).

(** [cumsum()]. *)
Fixpoint cumsum (acc : Q) (l : list Q) : list Q :=
  match l with
  | [] => []
  | a :: t => (acc + a)%Q :: cumsum (acc + a)%Q t
  end.

(** [np.arange(start, start + n)]. *)
Definition arange (start n : Z) : list Z :=
  map (fun i => start + Z.of_nat i) (seq 0 (Z.to_nat n)).

Definition str_int (n : Z) : string := NilZero.string_of_int (Z.to_int n).

(** The format [:.2f]. *)
Definition format_2f (x : Q) : string :=
  let cents := Z.abs (rne (x * 100)) in
  let frac := cents mod 100 in
  (if Qle_bool 0 x then "" else "-")
  ++ str_int (cents / 100) ++ "."
  ++ (if frac <? 10 then "0" else "") ++ str_int frac.

Record forecast_frame : Type := mkForecast {
  frame_days : list Z;
  frame_amount : list Q;
  frame_type : list string
}.

(** Day offsets and cumulative spending fed to the regression. *)
Definition regression_days (expense_data : list expense) : list Z :=
  let daily := daily_spending expense_data in
  map (fun r => fst r - hd 0 (map fst daily)) daily.

Definition regression_target (expense_data : list expense) : list Q :=
  cumsum 0 (map snd (daily_spending expense_data)).


Definition forecast_spending (expense_data : list expense) (forecast_days : Z)
  : result (option forecast_frame * string) :=
  if len expense_data <? 5 then
    Return (None, "Need at least 5 expenses for an accurate forecast.")
  else
    let daily := daily_spending expense_data in
    let X := regression_days expense_data in
    if len daily <? 2 then
      Return (None, "Need expenses on at least 2 different days for a forecast.")
    else
      let y := regression_target expense_data in
      let model := fit X y in
      let last_day := fold_right Z.max 0 X in
      let future_days := arange (last_day + 1) forecast_days in
      let future_predictions := map (predict model) future_days in
      let forecast_df :=
        mkForecast (List.app X future_days) (List.app y future_predictions)
                   (List.app (repeat "Historical" (List.length y))
                             (repeat "Forecast" (Z.to_nat forecast_days))) in
      match rev future_predictions with
      | [] => Raise "index -1 is out of bounds for axis 0 with size 0"
      | final :: _ =>
          Return (Some forecast_df,
                  "Predicted total spending in the next " ++ str_int forecast_days
                  ++ " days could reach around ₹" ++ format_2f final ++ ".")
      end.

End MLAnalyzer.

(** ** The specification's formulas, as it words them *)

Module Spec.
Import Frame.
Open Scope Z_scope.

(** Section 4.2, read over the rationals:
    [max(5, floor(duration * 2 * m * (1 + min(0.5, streak * 0.1))))]. *)
Definition multiplier (rating : Z) : Q :=
  match rating with
  | 1 => 1 # 2
  | 2 => 7 # 10
  | 3 => 1
  | 4 => 13 # 10
  | 5 => 3 # 2
  | _ => 1
  end.

Definition session_xp (duration_minutes confidence_rating streak_days : Z) : Z :=
  Z.max 5 (Qfloor (inject_Z duration_minutes * 2 * multiplier confidence_rating
                   * (1 + Qmin (1 # 2) (inject_Z streak_days * (1 # 10))))%Q).

(** A streak of [k] days ending on [start]: the [k] days up to [start] are
    present and the day before them is absent. *)
Definition is_run (present : Z -> Prop) (start k : Z) : Prop :=
  0 <= k /\ (forall i, 0 <= i < k -> present (start - i)) /\ ~ present (start - k).

(** Section 8: the streak of a set of dates seen from [now]. *)
Definition is_streak (present : Z -> Prop) (now k : Z) : Prop :=
  (~ present now /\ ~ present (now - 1) /\ k = 0) \/
  (present now /\ is_run present now k) \/
  (~ present now /\ present (now - 1) /\ is_run present (now - 1) k).

(** The number of thresholds at or below [total_xp]. *)
Definition count_reached (thresholds : list Z) (total_xp : Z) : Z :=
  len (filter (fun t => t <=? total_xp) thresholds).

Definition clamp (lo hi x : Z) : Z := Z.min hi (Z.max lo x).

(** Section 4.2: "level = 1 + count of thresholds <= total_xp, clamped to
    at least 1 and at most len(thresholds)". *)
Definition level_as_stated (thresholds : list Z) (total_xp : Z) : Z :=
  clamp 1 (len thresholds) (1 + count_reached thresholds total_xp).

(** The same without the added one. *)
Definition level_by_count (thresholds : list Z) (total_xp : Z) : Z :=
  clamp 1 (len thresholds) (count_reached thresholds total_xp).

End Spec.

(** ** Rocq's primitive binary64 numbers, to check the rounding against *)

Module Kernel.
Import Binary64.

(** The rational a finite kernel float denotes. *)
Definition to_Q (f : PrimFloat.float) : option Q :=
  match Prim2SF f with
  | S754_zero _ => Some 0%Q
  | S754_finite s m e =>
      Some (Qred ((if s then -1 else 1) * inject_Z (Zpos m) * pow2 e))%Q
  | _ => None
  end.

(** The kernel float of an integer below [2^62]. *)
Definition of_Z (n : Z) : PrimFloat.float :=
  if (n <? 0)%Z then PrimFloat.opp (PrimFloat.of_uint63 (Uint63.of_Z (- n)))
  else PrimFloat.of_uint63 (Uint63.of_Z n).

End Kernel.

(** ** utils.py, continued *)

Module UtilsMore.
Import Frame Binary64 Utils.
Open Scope string_scope.
Open Scope Z_scope.

(** A byte that is an ASCII whitespace character for [str.strip]:
    tab to carriage return, the four separators 28 to 31, and space. *)
Definition ascii_space (c : Ascii.ascii) : bool :=
  let n := Z.of_nat (Ascii.nat_of_ascii c) in
  ((9 <=? n) && (n <=? 13)) || ((28 <=? n) && (n <=? 32)).

Definition byte_is (c : Ascii.ascii) (n : Z) : bool :=
  Z.of_nat (Ascii.nat_of_ascii c) =? n.

Definition byte_in (c : Ascii.ascii) (lo hi : Z) : bool :=
  let n := Z.of_nat (Ascii.nat_of_ascii c) in (lo <=? n) && (n <=? hi).

(** [not s.strip()]: the text, read as UTF-8, consists of whitespace
    characters only (the ASCII ones, U+0085, U+00A0, U+1680, U+2000 to
    U+200A, U+2028, U+2029, U+202F, U+205F, U+3000). *)
Fixpoint blank (s : string) : bool :=
  match s with
  | EmptyString => true
  | String c rest =>
      if ascii_space c then blank rest
      else
        match rest with
        | String c2 rest2 =>
            if byte_is c 194 then
              (byte_is c2 133 || byte_is c2 160) && blank rest2
            else
              match rest2 with
              | String c3 rest3 =>
                  ((byte_is c 225 && byte_is c2 154 && byte_is c3 128)
                   || (byte_is c 226 && byte_is c2 128
                       && (byte_in c3 128 138 || byte_in c3 168 169
                           || byte_is c3 175))
                   || (byte_is c 226 && byte_is c2 129 && byte_is c3 159)
                   || (byte_is c 227 && byte_is c2 128 && byte_is c3 128))
                  && blank rest3
              | EmptyString => false
              end
        | EmptyString => false
        end
  end.

Definition validate_study_session (subject chapter : string) (duration confidence : Z)
  : list string :=
  let errors := [] in
  let errors :=
    if blank subject then List.app errors ["Subject is required"] else errors in
  let errors :=
    if blank chapter then List.app errors ["Chapter/Topic is required"] else errors in
  let errors :=
    if duration <=? 0 then List.app errors ["Duration must be greater than 0"]
    else if duration >? 1440 then List.app errors ["Duration cannot exceed 24 hours"]
    else errors in
  let errors :=
    if negb (existsb (Z.eqb confidence) [1; 2; 3; 4; 5]) then
      List.app errors ["Confidence rating must be between 1 and 5"]
    else errors in
  errors.





End UtilsMore.

(** ** gamification.py, continued *)

Module Achievements.
Import Frame Binary64 Utils Gamification.
Open Scope string_scope.
Open Scope Z_scope.

(** The XP column of the achievement catalogue. *)
Definition achievements : list (string * Z) :=
  [("first_session", 25); ("week_streak", 100); ("month_streak", 500);
   ("100_hours", 200); ("perfect_week", 150); ("quiz_master", 300);
   ("subject_expert", 250)].

Fixpoint lookup (key : string) (d : list (string * Z)) : option Z :=
  match d with
  | [] => None
  | (k, v) :: rest => if String.eqb key k then Some v else lookup key rest
  end.

(** [user_data.tail(7)]. *)
Definition tail7 (user_data : list session) : list session :=
  skipn (List.length user_data - 7) user_data.

(** [groupby('subject')['confidence_rating'].mean()], one mean for each
    subject. *)
Fixpoint subject_means (user_data : list session) (subjects : list string)
  : option (list Q) :=
  match subjects with
  | [] => Some []
  | subj :: rest =>
      m <- MLAnalyzer.mean
             (map confidence_rating
                  (filter (fun s => String.eqb (subject s) subj) user_data)) ;;
      ms <- subject_means user_data rest ;;
      Some (m :: ms)
  end.

(** [quiz_data] is accepted and never read.  [None] when a float leaves
    the finite range. *)
Definition check_achievements {Quiz : Type}
    (user_data : list session) (quiz_data : option Quiz) (today : Z)
  : option (list string) :=
  let earned_achievements := [] in
  match user_data with
  | [] => Some earned_achievements
  | _ =>
      let earned_achievements :=
        if len user_data >=? 1
        then List.app earned_achievements ["first_session"]
        else earned_achievements in
      let current_streak := calculate_streak user_data today in
      let earned_achievements :=
        if current_streak >=? 7
        then List.app earned_achievements ["week_streak"]
        else earned_achievements in
      let earned_achievements :=
        if current_streak >=? 30
        then List.app earned_achievements ["month_streak"]
        else earned_achievements in
      let total_minutes := sum_Z (map duration_minutes user_data) in
      minutes <- of_int total_minutes ;;
      total_hours <- div minutes 60 ;;
      let earned_achievements :=
        if Qle_bool 100 total_hours
        then List.app earned_achievements ["100_hours"]
        else earned_achievements in
      perfect <-
        (if len user_data >=? 7 then
           recent <- MLAnalyzer.mean (map confidence_rating (tail7 user_data)) ;;
           Some (Qle_bool 4 recent)
         else Some false) ;;
      let earned_achievements :=
        if perfect
        then List.app earned_achievements ["perfect_week"]
        else earned_achievements in
      subject_confidence <-
        subject_means user_data (unique String.eqb (map subject user_data)) ;;
      let earned_achievements :=
        if existsb (fun conf => Qle_bool 4 conf) subject_confidence
        then List.app earned_achievements ["subject_expert"]
        else earned_achievements in
      Some earned_achievements
  end.

Fixpoint bonus_of (earned : list string) (bonus_xp : Z) : Z :=
  match earned with
  | [] => bonus_xp
  | achievement :: rest =>
      match lookup achievement achievements with
      | Some xp => bonus_of rest (bonus_xp + xp)
      | None => bonus_of rest bonus_xp
      end
  end.

Definition calculate_bonus_xp (user_data : list session) (today : Z) : option Z :=
  earned <- check_achievements user_data (@None unit) today ;;
  Some (bonus_of earned 0).

End Achievements.

(** ** ml_analyzer.py, continued *)

Module Clustering.
Open Scope Z_scope.

(** The number of clusters [_perform_clustering] asks for:
    [min(4, max(2, len(features) // 2))]. *)
Definition n_clusters (features_len : Z) : Z :=
  Z.min 4 (Z.max 2 (features_len / 2)).

End Clustering.

(** ** gamification.py: milestones *)

Module Milestones.
Import Frame Binary64 Gamification.
Open Scope string_scope.
Open Scope Z_scope.

(** The dictionary of one milestone. *)
Record milestone : Type := mkMilestone {
  milestone_type : string;
  description : string;
  milestone_progress : Q;
  target : string
}.

(** [None] when a float leaves the finite range. *)
Definition get_next_milestone (total_xp current_streak : Z)
  : option (list milestone) :=
  let milestones := [] in
  level_info <- get_level_progress total_xp ;;
  let milestones :=
    if xp_to_next level_info >? 0 then
      List.app milestones
        [mkMilestone "level"
           ("Reach Level " ++ MLAnalyzer.str_int (current_level level_info + 1))
           (progress level_info)
           (MLAnalyzer.str_int (xp_to_next level_info) ++ " XP needed")]
    else milestones in
  if current_streak <? 7 then
    q <- div (inject_Z current_streak) 7 ;;
    streak_progress <- mul q 100 ;;
    let milestones :=
      List.app milestones
        [mkMilestone "streak" "7-day study streak" streak_progress
           (MLAnalyzer.str_int (7 - current_streak) ++ " more days")] in
    Some (firstn 2 milestones)
  else if current_streak <? 30 then
    q <- div (inject_Z current_streak) 30 ;;
    streak_progress <- mul q 100 ;;
    let milestones :=
      List.app milestones
        [mkMilestone "streak" "30-day study streak" streak_progress
           (MLAnalyzer.str_int (30 - current_streak) ++ " more days")] in
    Some (firstn 2 milestones)
  else Some (firstn 2 milestones).

End Milestones.

(** ** Notions used by the proofs *)

Module Aux.
Import Frame.
Open Scope Z_scope.

(** Strictly descending lists. *)
Definition descending (l : list Z) : Prop := StronglySorted Z.gt l.

(** The dates a streak is computed from. *)
Definition study_dates (user_data : list session) : list Z :=
  sorted_reverse (unique Z.eqb (map date user_data)).

(** The days on which the log has a session. *)
Definition studied (user_data : list session) (d : Z) : Prop :=
  In d (map date user_data).


End Aux.

(* ================================================================== *)
(** * Part II: properties                                              *)
(* ================================================================== *)

(** ** Rounding *)

Import Binary64.
Local Open Scope Q_scope.

Lemma pow2_pos e : 0 < pow2 e.
Proof. apply Qpower_0_lt. reflexivity. Qed.

Lemma pow2_add a b : pow2 (a + b) == pow2 a * pow2 b.
Proof. apply Qpower_plus. discriminate. Qed.

Lemma pow2_le a b : (a <= b)%Z -> pow2 a <= pow2 b.
Proof. intro H. apply Qpower_le_compat_l; [exact H | discriminate]. Qed.

Lemma pow2_lt a b : (a < b)%Z -> pow2 a < pow2 b.
Proof. intro H. apply Qpower_lt_compat_l; [exact H | reflexivity]. Qed.

Lemma pow2_lt_inv a b : pow2 a < pow2 b -> (a < b)%Z.
Proof.
  intro H. destruct (Z_lt_le_dec a b) as [L|L]; [exact L|].
  apply pow2_le in L. lra.
Qed.

Lemma pow2_Z n : (0 <= n)%Z -> pow2 n == inject_Z (2 ^ n).
Proof. intro H. unfold pow2. rewrite Zpower_Qpower by exact H. reflexivity. Qed.

Lemma pow2_succ a : pow2 (a + 1) == 2 * pow2 a.
Proof. rewrite pow2_add. change (pow2 1) with 2. ring. Qed.

Ltac push_inj :=
  unfold Z.sub in *;
  repeat (rewrite ?inject_Z_plus, ?inject_Z_opp, ?inject_Z_mult in * );
  change (inject_Z 1) with 1 in *; change (inject_Z 0) with 0 in *;
  change (inject_Z 2) with 2 in *.

Lemma Qfloor_unique x n :
  inject_Z n <= x -> x < inject_Z (n + 1) -> Qfloor x = n.
Proof.
  intros H1 H2.
  pose proof (Qfloor_le x) as F1. pose proof (Qlt_floor x) as F2.
  assert (inject_Z n < inject_Z (Qfloor x + 1)) as A by lra.
  assert (inject_Z (Qfloor x) < inject_Z (n + 1)) as B by lra.
  rewrite <- Zlt_Qlt in A, B. lia.
Qed.

Lemma rne_cases x :
  let f := Qfloor x in
  (x - inject_Z f < 1#2 /\ rne x = f) \/
  (1#2 < x - inject_Z f /\ rne x = (f + 1)%Z) \/
  (x - inject_Z f == 1#2 /\ rne x = if Z.even f then f else (f + 1)%Z).
Proof.
  intro f. unfold rne. fold f.
  destruct (Qcompare_spec (x - inject_Z f) (1#2)); auto.
Qed.

#[global] Instance rne_proper : Proper (Qeq ==> eq) rne.
Proof.
  intros x y E. unfold rne.
  assert (Qfloor x = Qfloor y) as F by (rewrite E; reflexivity).
  rewrite F.
  assert ((x - inject_Z (Qfloor y) ?= 1#2) = (y - inject_Z (Qfloor y) ?= 1#2)) as C
    by (rewrite E; reflexivity).
  rewrite C. reflexivity.
Qed.

Lemma rne_Z n : rne (inject_Z n) = n.
Proof.
  destruct (rne_cases (inject_Z n)) as [[_ H]|[[H _]|[H _]]];
    rewrite Qfloor_Z in *; [exact H | lra | lra].
Qed.

Lemma rne_mono x y : x <= y -> (rne x <= rne y)%Z.
Proof.
  intro L.
  pose proof (Qfloor_resp_le _ _ L) as FL.
  pose proof (Qfloor_le x) as X1. pose proof (Qlt_floor x) as X2.
  pose proof (Qfloor_le y) as Y1. pose proof (Qlt_floor y) as Y2.
  destruct (Z.eq_dec (Qfloor x) (Qfloor y)) as [E|NE].
  - destruct (rne_cases x) as [[Hx Rx]|[[Hx Rx]|[Hx Rx]]];
    destruct (rne_cases y) as [[Hy Ry]|[[Hy Ry]|[Hy Ry]]];
    rewrite Rx, Ry; rewrite E in *; try lia; try lra;
    destruct (Z.even (Qfloor y)); lia.
  - assert (rne x <= Qfloor x + 1)%Z.
    { destruct (rne_cases x) as [[_ R]|[[_ R]|[_ R]]]; rewrite R; try lia.
      destruct (Z.even (Qfloor x)); lia. }
    assert (Qfloor y <= rne y)%Z.
    { destruct (rne_cases y) as [[_ R]|[[_ R]|[_ R]]]; rewrite R; try lia.
      destruct (Z.even (Qfloor y)); lia. }
    lia.
Qed.

Lemma rne_opp x : rne (- x) = (- rne x)%Z.
Proof.
  pose proof (Qfloor_le x) as X1. pose proof (Qlt_floor x) as X2.
  rewrite inject_Z_plus in X2. change (inject_Z 1) with 1 in X2.
  destruct (Qeq_dec x (inject_Z (Qfloor x))) as [E|NE].
  - assert (rne (- x) = rne (inject_Z (- Qfloor x))) as A
      by (apply rne_proper; rewrite inject_Z_opp; lra).
    assert (rne x = rne (inject_Z (Qfloor x))) as B by (apply rne_proper; exact E).
    rewrite A, B, !rne_Z. reflexivity.
  - assert (inject_Z (Qfloor x) < x) as X3.
    { destruct (Qlt_le_dec (inject_Z (Qfloor x)) x) as [l|l]; [exact l|].
      exfalso. apply NE. lra. }
    assert (Qfloor (- x) = (- Qfloor x - 1)%Z) as F.
    { apply Qfloor_unique.
      - push_inj. lra.
      - replace (- Qfloor x - 1 + 1)%Z with (- Qfloor x)%Z by lia.
        push_inj. lra. }
    destruct (rne_cases x) as [[Hx Rx]|[[Hx Rx]|[Hx Rx]]];
    destruct (rne_cases (- x)) as [[Hy Ry]|[[Hy Ry]|[Hy Ry]]];
    rewrite Rx, Ry; rewrite F in *; push_inj; try lia; try lra.
    replace (- Qfloor x + - (1))%Z with (- (Qfloor x + 1))%Z by lia.
    rewrite Z.even_opp, Z.even_add. simpl.
    destruct (Z.even (Qfloor x)); simpl; lia.
Qed.

Lemma rne_ge x n : inject_Z n <= x -> (n <= rne x)%Z.
Proof. intro H. apply rne_mono in H. rewrite rne_Z in H. exact H. Qed.

Lemma rne_le x n : x <= inject_Z n -> (rne x <= n)%Z.
Proof. intro H. apply rne_mono in H. rewrite rne_Z in H. exact H. Qed.

Lemma Qabs_num_den x : Qabs x * inject_Z (Zpos (Qden x)) == inject_Z (Z.abs (Qnum x)).
Proof.
  destruct x as [n d]. unfold Qabs, Qeq, Qmult, inject_Z. simpl. lia.
Qed.

Lemma mag_bounds x :
  ~ x == 0 ->
  let k := (Z.log2 (Z.abs (Qnum x)) - Z.log2 (Zpos (Qden x)))%Z in
  pow2 (k - 1) < Qabs x /\ Qabs x < pow2 (k + 1).
Proof.
  intros NZ k.
  assert (0 < Z.abs (Qnum x))%Z as Hn.
  { destruct x as [n d]. unfold Qeq in NZ. simpl in *. lia. }
  set (n := Z.abs (Qnum x)) in *. set (d := Zpos (Qden x)) in *.
  assert (0 < d)%Z as Hd by (unfold d; lia).
  pose proof (Z.log2_spec n Hn) as [Na Nb].
  pose proof (Z.log2_spec d Hd) as [Da Db].
  pose proof (Z.log2_nonneg n) as An. pose proof (Z.log2_nonneg d) as Ad.
  set (a := Z.log2 n) in *. set (b := Z.log2 d) in *.
  rewrite <- Z.add_1_r in Nb, Db.
  pose proof (Qabs_num_den x) as E. fold n d in E.
  rewrite Zle_Qle in Na, Da. rewrite Zlt_Qlt in Nb, Db.
  rewrite <- pow2_Z in Na, Nb, Da, Db by lia.
  assert (0 < inject_Z d) as Hd' by (change 0 with (inject_Z 0); rewrite <- Zlt_Qlt; exact Hd).
  pose proof (Qabs_nonneg x) as Hx.
  pose proof (pow2_pos (k - 1)) as P1. pose proof (pow2_pos (k + 1)) as P2.
  assert (pow2 a == pow2 (k - 1) * pow2 (b + 1)) as E1
    by (rewrite <- pow2_add; replace (k - 1 + (b + 1))%Z with a by (unfold k; lia); reflexivity).
  assert (pow2 (a + 1) == pow2 (k + 1) * pow2 b) as E2
    by (rewrite <- pow2_add; replace (k + 1 + b)%Z with (a + 1)%Z by (unfold k; lia); reflexivity).
  split.
  - apply Qnot_le_lt. intro C.
    assert (Qabs x * inject_Z d < pow2 (k - 1) * pow2 (b + 1)) by nra. lra.
  - apply Qnot_le_lt. intro C.
    assert (pow2 (k + 1) * pow2 b <= Qabs x * inject_Z d) by nra. lra.
Qed.

Lemma mag_spec x : ~ x == 0 -> pow2 (mag x) <= Qabs x /\ Qabs x < pow2 (mag x + 1).
Proof.
  intro NZ. destruct (mag_bounds x NZ) as [L U]. unfold mag.
  set (k := (Z.log2 (Z.abs (Qnum x)) - Z.log2 (Zpos (Qden x)))%Z) in *.
  destruct (Qle_bool (pow2 k) (Qabs x)) eqn:B.
  - apply Qle_bool_iff in B. split; assumption.
  - assert (Qabs x < pow2 k) as C.
    { apply Qnot_le_lt. intro C. apply Qle_bool_iff in C. congruence. }
    replace (k - 1 + 1)%Z with k by lia. split; [apply Qlt_le_weak; exact L | exact C].
Qed.

Lemma mag_unique x e : pow2 e <= Qabs x -> Qabs x < pow2 (e + 1) -> mag x = e.
Proof.
  intros L U.
  assert (~ x == 0) as NZ.
  { intro E. rewrite E in L. pose proof (pow2_pos e). change (Qabs 0) with 0 in L. lra. }
  destruct (mag_spec x NZ) as [L' U'].
  assert (pow2 e < pow2 (mag x + 1)) as A by lra.
  assert (pow2 (mag x) < pow2 (e + 1)) as B by lra.
  apply pow2_lt_inv in A, B. lia.
Qed.

Lemma mag_le x y : ~ x == 0 -> Qabs x <= Qabs y -> (mag x <= mag y)%Z.
Proof.
  intros NZ L.
  assert (~ y == 0) as NZy.
  { intro E. rewrite E in L. change (Qabs 0) with 0 in L.
    pose proof (Qabs_nonneg x). apply NZ.
    destruct (Qabs_Qle_condition x 0) as [F _]. specialize (F L). lra. }
  destruct (mag_spec x NZ) as [Lx Ux]. destruct (mag_spec y NZy) as [Ly Uy].
  assert (pow2 (mag x) < pow2 (mag y + 1)) as A by lra.
  apply pow2_lt_inv in A. lia.
Qed.

Lemma mag_eq x y : x == y -> ~ x == 0 -> mag x = mag y.
Proof.
  intros E NZ. assert (~ y == 0) as NZy by (rewrite <- E; exact NZ).
  destruct (mag_spec y NZy) as [L U]. apply mag_unique; rewrite E; assumption.
Qed.

Lemma RN_zero x : x == 0 -> RN x == 0.
Proof.
  intro E. unfold RN. rewrite Qred_correct.
  assert (rne (x / pow2 (ulp_exp x)) = 0%Z) as R.
  { rewrite <- rne_Z. apply rne_proper. generalize (pow2 (ulp_exp x)). intro p.
    rewrite E. unfold Qdiv. ring. }
  rewrite R. ring.
Qed.

#[global] Instance RN_proper : Proper (Qeq ==> Qeq) RN.
Proof.
  intros x y E. destruct (Qeq_dec x 0) as [Hz|NZ].
  - rewrite (RN_zero x Hz). assert (y == 0) as Hy by (apply Qeq_trans with x; [symmetry; exact E | exact Hz]).
    rewrite (RN_zero y Hy). reflexivity.
  - unfold RN, ulp_exp. rewrite !Qred_correct.
    rewrite (mag_eq x y E NZ).
    set (u := Z.max (mag y - 52) (-1074)).
    assert (rne (x / pow2 u) = rne (y / pow2 u)) as R by (apply rne_proper; rewrite E; reflexivity).
    rewrite R. reflexivity.
Qed.

Lemma RN_eq x : RN x == inject_Z (rne (x / pow2 (ulp_exp x))) * pow2 (ulp_exp x).
Proof. unfold RN. apply Qred_correct. Qed.

Lemma mag_opp x : mag (- x) = mag x.
Proof.
  unfold mag. destruct x as [n d]. simpl. rewrite Z.abs_opp. reflexivity.
Qed.

Lemma RN_opp x : RN (- x) == - RN x.
Proof.
  rewrite !RN_eq. unfold ulp_exp. rewrite mag_opp.
  set (u := Z.max (mag x - 52) (-1074)).
  assert (rne (- x / pow2 u) = (- rne (x / pow2 u))%Z) as R.
  { rewrite <- rne_opp. apply rne_proper. unfold Qdiv. ring. }
  rewrite R, inject_Z_opp. ring.
Qed.

Lemma RN_nonneg x : 0 <= x -> 0 <= RN x.
Proof.
  intro H. rewrite RN_eq.
  pose proof (pow2_pos (ulp_exp x)) as P.
  apply Qmult_le_0_compat; [| lra].
  change 0 with (inject_Z 0). rewrite <- Zle_Qle. apply rne_ge.
  apply Qle_shift_div_l; [exact P|]. change (inject_Z 0) with 0. lra.
Qed.

Lemma RN_mono_pos x y : 0 < x -> x <= y -> RN x <= RN y.
Proof.
  intros Hx L.
  assert (~ x == 0) as NZx by lra. assert (~ y == 0) as NZy by lra.
  destruct (mag_spec x NZx) as [Lx Ux]. destruct (mag_spec y NZy) as [Ly Uy].
  rewrite Qabs_pos in Lx, Ux, Ly, Uy by lra.
  assert (mag x <= mag y)%Z as M by (apply mag_le; [exact NZx | rewrite !Qabs_pos by lra; exact L]).
  rewrite !RN_eq. unfold ulp_exp.
  set (ux := Z.max (mag x - 52) (-1074)). set (uy := Z.max (mag y - 52) (-1074)).
  pose proof (pow2_pos ux) as Px. pose proof (pow2_pos uy) as Py.
  destruct (Z.eq_dec ux uy) as [E|NE].
  - rewrite E in *. apply Qmult_le_compat_r; [| lra].
    rewrite <- Zle_Qle. apply rne_mono.
    apply Qle_shift_div_l; [exact Py|].
    unfold Qdiv. rewrite <- Qmult_assoc, (Qmult_comm (/ _)), Qmult_inv_r by lra. lra.
  - assert (ux < uy)%Z as LT by lia.
    assert (uy = mag y - 52)%Z as EY by lia.
    assert (mag x + 1 <= ux + 53)%Z as EX by lia.
    (* upper bound on RN x *)
    assert (rne (x / pow2 ux) <= 2 ^ 53)%Z as RX.
    { apply rne_le. rewrite <- pow2_Z by lia.
      apply Qle_shift_div_r; [exact Px|].
      rewrite <- pow2_add. apply pow2_le in EX.
      replace (53 + ux)%Z with (ux + 53)%Z by lia. lra. }
    assert (2 ^ 52 <= rne (y / pow2 uy))%Z as RY.
    { apply rne_ge. rewrite <- pow2_Z by lia.
      apply Qle_shift_div_l; [exact Py|].
      rewrite <- pow2_add. replace (52 + uy)%Z with (mag y) by lia. exact Ly. }
    rewrite Zle_Qle in RX, RY. rewrite <- pow2_Z in RX, RY by lia.
    assert (pow2 53 * pow2 ux <= pow2 52 * pow2 uy) as K.
    { rewrite <- !pow2_add. apply pow2_le. lia. }
    apply Qle_trans with (pow2 53 * pow2 ux).
    + apply Qmult_le_compat_r; [exact RX | lra].
    + apply Qle_trans with (pow2 52 * pow2 uy); [exact K|].
      apply Qmult_le_compat_r; [exact RY | lra].
Qed.

Lemma RN_mono x y : x <= y -> RN x <= RN y.
Proof.
  intro L.
  destruct (Qlt_le_dec 0 x) as [Px|Nx].
  - apply RN_mono_pos; assumption.
  - destruct (Qlt_le_dec y 0) as [Ny|Py].
    + assert (RN (- y) <= RN (- x)) as H by (apply RN_mono_pos; lra).
      rewrite !RN_opp in H. lra.
    + assert (0 <= RN y) by (apply RN_nonneg; exact Py).
      assert (0 <= RN (- x)) as H1 by (apply RN_nonneg; lra).
      rewrite RN_opp in H1. lra.
Qed.

(** Rounded values are canonical fractions, so equal rationals round to
    the same term. *)
Lemma RN_ext x y : x == y -> RN x = RN y.
Proof.
  intro E. pose proof (RN_proper x y E) as H. unfold RN in *.
  apply Qred_complete. rewrite !Qred_correct in H. exact H.
Qed.

Lemma fl_ext x y : x == y -> fl x = fl y.
Proof. intro E. unfold fl. rewrite (RN_ext x y E). reflexivity. Qed.

Lemma RN_abs x : Qabs (RN x) == RN (Qabs x).
Proof.
  destruct (Qlt_le_dec x 0) as [N|P].
  - assert (Qabs x == - x) as E by (apply Qabs_neg; lra).
    rewrite (RN_ext _ _ E), RN_opp.
    apply Qabs_neg.
    assert (0 <= RN (- x)) as H by (apply RN_nonneg; lra).
    rewrite RN_opp in H. lra.
  - assert (Qabs x == x) as E by (apply Qabs_pos; exact P).
    rewrite (RN_ext _ _ E). apply Qabs_pos. apply RN_nonneg. exact P.
Qed.

Lemma RN_abs_mono x y : Qabs x <= Qabs y -> Qabs (RN x) <= Qabs (RN y).
Proof. intro H. rewrite !RN_abs. apply RN_mono. exact H. Qed.

Lemma fl_Some x r : fl x = Some r -> r = RN x /\ Qabs (RN x) < pow2 1024.
Proof.
  unfold fl. destruct (Qle_bool (pow2 1024) (Qabs (RN x))) eqn:B; [discriminate|].
  intro H. injection H as <-. split; [reflexivity|].
  apply Qnot_le_lt. intro C. apply Qle_bool_iff in C. congruence.
Qed.

Lemma fl_intro x : Qabs (RN x) < pow2 1024 -> fl x = Some (RN x).
Proof.
  intro H. unfold fl.
  destruct (Qle_bool (pow2 1024) (Qabs (RN x))) eqn:B; [|reflexivity].
  apply Qle_bool_iff in B. lra.
Qed.

(** An operation that stays finite on [y] stays finite on anything
    smaller in magnitude. *)
Lemma fl_smaller x y r :
  fl y = Some r -> Qabs x <= Qabs y -> fl x = Some (RN x).
Proof.
  intros H L. apply fl_Some in H. destruct H as [_ H].
  apply fl_intro. apply RN_abs_mono in L. lra.
Qed.

(** Values between two finite roundings round to a finite value between
    them. *)
Lemma fl_between a b x :
  a <= x -> x <= b ->
  Qabs (RN a) < pow2 1024 -> Qabs (RN b) < pow2 1024 ->
  fl x = Some (RN x) /\ RN a <= RN x /\ RN x <= RN b.
Proof.
  intros L U Fa Fb.
  pose proof (RN_mono _ _ L) as M1. pose proof (RN_mono _ _ U) as M2.
  split; [|split; assumption].
  apply fl_intro.
  apply Qabs_Qlt_condition. apply Qabs_Qlt_condition in Fa, Fb. lra.
Qed.

(** Numbers with at most 53 significant bits and an exponent in range
    are fixed by the rounding. *)
Lemma RN_representable m e :
  (Z.abs m <= 2 ^ 53)%Z -> (-1074 <= e)%Z ->
  RN (inject_Z m * pow2 e) == inject_Z m * pow2 e.
Proof.
  intros Hm He.
  destruct (Z.eq_dec m 0) as [->|NZ].
  { assert (inject_Z 0 * pow2 e == 0) as E0 by ring.
    rewrite (RN_zero _ E0). symmetry. exact E0. }
  set (x := inject_Z m * pow2 e).
  pose proof (pow2_pos e) as Pe.
  assert (Qabs x == inject_Z (Z.abs m) * pow2 e) as Ax.
  { unfold x. rewrite Qabs_Qmult, (Qabs_pos (pow2 e)) by lra.
    apply Qmult_comp; [|reflexivity].
    unfold Qabs, inject_Z. reflexivity. }
  assert (0 < Z.abs m)%Z as Pm by lia.
  pose proof (Z.log2_spec _ Pm) as [La Lb].
  pose proof (Z.log2_nonneg (Z.abs m)) as Ln.
  set (a := Z.log2 (Z.abs m)) in *.
  rewrite <- Z.add_1_r in Lb.
  assert (mag x = a + e)%Z as Mx.
  { apply mag_unique; rewrite Ax.
    - rewrite pow2_add, (pow2_Z a) by lia.
      apply Qmult_le_compat_r; [rewrite <- Zle_Qle; exact La | lra].
    - replace (a + e + 1)%Z with ((a + 1) + e)%Z by lia.
      rewrite pow2_add, (pow2_Z (a + 1)) by lia.
      apply Qmult_lt_compat_r; [exact Pe | rewrite <- Zlt_Qlt; exact Lb]. }
  assert (a <= 53)%Z as A53.
  { destruct (Z_le_gt_dec a 53) as [l|g]; [exact l|].
    assert (2 ^ 54 <= 2 ^ a)%Z by (apply Z.pow_le_mono_r; lia). lia. }
  rewrite RN_eq. unfold ulp_exp. rewrite Mx.
  set (u := Z.max (a + e - 52) (-1074)).
  pose proof (pow2_pos u) as Pu.
  (* the scaled value is an integer *)
  assert (exists k : Z, x / pow2 u == inject_Z k) as [k Hk].
  { destruct (Z_le_gt_dec u e) as [l|g].
    - exists (m * 2 ^ (e - u))%Z. unfold x.
      rewrite inject_Z_mult, <- pow2_Z by lia.
      apply Qmult_inj_r with (pow2 u); [lra|].
      unfold Qdiv. rewrite <- Qmult_assoc, (Qmult_comm (/ _)), Qmult_inv_r by lra.
      rewrite <- !Qmult_assoc, <- pow2_add.
      replace (e - u + u)%Z with e by lia. ring.
    - (* only when |m| = 2^53 *)
      assert (a = 53)%Z as A by lia.
      assert (Z.abs m = 2 ^ 53)%Z as M by (rewrite A in La; lia).
      assert (u = e + 1)%Z as U by lia.
      exists (m / 2)%Z. unfold x.
      assert (m = 2 * (m / 2))%Z as D.
      { apply Z.div_exact; [lia|].
        assert (m = 2 ^ 53 \/ m = - 2 ^ 53)%Z as [Q|Q] by lia;
          rewrite Q; reflexivity. }
      rewrite D at 1. rewrite inject_Z_mult.
      apply Qmult_inj_r with (pow2 u); [lra|].
      unfold Qdiv. rewrite <- Qmult_assoc, (Qmult_comm (/ _)), Qmult_inv_r by lra.
      rewrite U, pow2_succ. change (inject_Z 2) with 2. ring. }
  assert (rne (x / pow2 u) = k) as R by (rewrite <- (rne_Z k); apply rne_proper; exact Hk).
  rewrite R, <- Hk. unfold Qdiv.
  rewrite <- Qmult_assoc, (Qmult_comm (/ _)), Qmult_inv_r by lra. ring.
Qed.




(** ** Levels *)

Import Frame Utils Gamification Aux.
Local Open Scope Z_scope.

Lemma count_reached_bounds thresholds total_xp :
  0 <= Spec.count_reached thresholds total_xp <= len thresholds.
Proof.
  unfold Spec.count_reached, len.
  pose proof (filter_length_le (fun t => t <=? total_xp) thresholds). lia.
Qed.

Lemma count_reached_none thresholds total_xp :
  Forall (fun t => total_xp < t) thresholds ->
  Spec.count_reached thresholds total_xp = 0.
Proof.
  unfold Spec.count_reached, len. induction 1 as [|t l H _ IH]; [reflexivity|].
  simpl. destruct (Z.leb_spec t total_xp); [lia | exact IH].
Qed.

Lemma count_reached_cons t thresholds total_xp :
  t <= total_xp ->
  Spec.count_reached (t :: thresholds) total_xp
  = 1 + Spec.count_reached thresholds total_xp.
Proof.
  intro H. unfold Spec.count_reached, len. cbn [filter].
  destruct (Z.leb_spec t total_xp); [cbn [List.length]; lia | lia].
Qed.

(** On an ascending table the loop stops at the number of thresholds
    reached, or runs off the end when all of them are. *)
Lemma get_level_loop_count thresholds level total_xp :
  StronglySorted Z.le thresholds ->
  get_level_loop thresholds level total_xp
  = if forallb (fun t => t <=? total_xp) thresholds
    then len level_thresholds
    else Z.max 1 (level + Spec.count_reached thresholds total_xp).
Proof.
  intro S. revert level.
  induction S as [|t rest S IH All]; intro level; [reflexivity|].
  simpl. destruct (Z.ltb_spec total_xp t) as [L|G].
  - destruct (Z.leb_spec t total_xp); [lia|]. simpl.
    rewrite count_reached_none; [f_equal; lia|].
    constructor; [exact L|].
    eapply Forall_impl; [|exact All]. simpl. intros; lia.
  - destruct (Z.leb_spec t total_xp); [|lia]. simpl.
    rewrite IH, count_reached_cons by exact G.
    destruct (forallb _ rest); [reflexivity | f_equal; lia].
Qed.

Lemma level_thresholds_ascending : StronglySorted Z.le level_thresholds.
Proof.
  unfold level_thresholds.
  repeat (constructor; [| repeat (constructor; [lia|]); constructor]).
  constructor.
Qed.

Lemma forallb_count_all thresholds total_xp :
  forallb (fun t => t <=? total_xp) thresholds = true ->
  Spec.count_reached thresholds total_xp = len thresholds.
Proof.
  unfold Spec.count_reached, len. induction thresholds as [|t l IH]; [reflexivity|].
  cbn [filter forallb]. destruct (t <=? total_xp); [|discriminate].
  cbn [andb List.length]. intro H. specialize (IH H). lia.
Qed.

(** The level is the clamped number of thresholds reached. *)
Lemma get_level_by_count (total_xp : Z) :
  get_level total_xp = Spec.level_by_count level_thresholds total_xp.
Proof.
  unfold get_level, Spec.level_by_count, Spec.clamp.
  rewrite get_level_loop_count by exact level_thresholds_ascending.
  pose proof (count_reached_bounds level_thresholds total_xp) as B.
  destruct (forallb _ level_thresholds) eqn:F.
  - rewrite (forallb_count_all _ _ F). change (len level_thresholds) with 21. lia.
  - change (len level_thresholds) with 21 in *. lia.
Qed.

(** C5, as the code has it: the level is the number of thresholds at or
    below [total_xp], clamped between 1 and 21; no one is added. *)
Theorem get_level_counts_thresholds (total_xp : Z) :
  get_level total_xp
  = Z.min 21 (Z.max 1 (Spec.count_reached level_thresholds total_xp)).
Proof.
  rewrite get_level_by_count. unfold Spec.level_by_count, Spec.clamp.
  change (len level_thresholds) with 21. reflexivity.
Qed.

(** C5, as stated ("1 + count of thresholds <= total_xp"), fails at
    [total_xp = 0]: one threshold is reached, the formula gives 2 and
    the code level 1. *)
Lemma get_level_not_one_plus_count :
  0 <= 0 /\ get_level 0 = 1 /\ Spec.level_as_stated level_thresholds 0 = 2.
Proof. repeat split; (lia || reflexivity). Qed.

(** C4: the stated levels, and saturation at 21 from the last threshold
    on; the function is total and its value always lies in 1..21. *)
Theorem get_level_saturates :
  get_level 0 = 1 /\ get_level 99 = 1 /\ get_level 100 = 2 /\
  get_level 15300 = 21 /\ get_level 999999 = 21 /\
  (forall total_xp, 15300 <= total_xp -> get_level total_xp = 21) /\
  (forall total_xp, 1 <= get_level total_xp <= 21).
Proof.
  repeat (split; [reflexivity|]). split.
  - intros total_xp H. rewrite get_level_by_count.
    unfold Spec.level_by_count, Spec.clamp.
    rewrite forallb_count_all; [reflexivity|].
    unfold level_thresholds. simpl.
    repeat (match goal with |- context [?t <=? total_xp] =>
              destruct (Z.leb_spec t total_xp); [|lia] end).
    reflexivity.
  - intro total_xp. rewrite get_level_by_count.
    unfold Spec.level_by_count, Spec.clamp.
    change (len level_thresholds) with 21. lia.
Qed.

Lemma get_level_saturates_witness : 15300 <= 20000 /\ get_level 20000 = 21.
Proof.
  split; [lia|].
  apply (proj1 (proj2 (proj2 (proj2 (proj2 (proj2 get_level_saturates)))))). lia.
Defined.

Lemma get_level_mono x y : x <= y -> get_level x <= get_level y.
Proof.
  intro L. rewrite !get_level_by_count.
  unfold Spec.level_by_count, Spec.clamp.
  assert (Spec.count_reached level_thresholds x <= Spec.count_reached level_thresholds y).
  { unfold Spec.count_reached, len. generalize level_thresholds.
    induction l as [|t l IH]; [simpl; lia|].
    cbn [filter]. destruct (Z.leb_spec t x), (Z.leb_spec t y); cbn [List.length]; lia. }
  lia.
Qed.

(** ** [unique] and [sorted] *)

Lemma In_filter_neq x y l :
  In y (filter (fun z => negb (x =? z)) l) <-> In y l /\ y <> x.
Proof.
  rewrite filter_In. split; intros [H1 H2]; split; try exact H1.
  - destruct (Z.eqb_spec x y); [discriminate | congruence].
  - destruct (Z.eqb_spec x y); [congruence | reflexivity].
Qed.

Lemma In_unique x l : In x (unique Z.eqb l) <-> In x l.
Proof.
  induction l as [|y t IH]; [reflexivity|].
  cbn [unique]. simpl. rewrite In_filter_neq, IH.
  destruct (Z.eq_dec y x); intuition congruence.
Qed.

Lemma NoDup_filter {A : Type} (f : A -> bool) l : NoDup l -> NoDup (filter f l).
Proof.
  induction 1 as [|x l H _ IH]; [constructor|].
  simpl. destruct (f x); [|exact IH].
  constructor; [|exact IH]. rewrite filter_In. tauto.
Qed.

Lemma NoDup_unique l : NoDup (unique Z.eqb l).
Proof.
  induction l as [|y t IH]; [constructor|].
  cbn [unique]. constructor.
  - rewrite In_filter_neq. tauto.
  - apply NoDup_filter. exact IH.
Qed.

Lemma In_insert {A : Type} (leb : A -> A -> bool) x y l :
  In y (insert leb x l) <-> y = x \/ In y l.
Proof.
  induction l as [|z t IH]; simpl.
  - intuition congruence.
  - destruct (leb x z); simpl; [intuition congruence|].
    rewrite IH. intuition congruence.
Qed.

Lemma In_sort {A : Type} (leb : A -> A -> bool) y l :
  In y (sort leb l) <-> In y l.
Proof.
  unfold sort. induction l as [|x t IH]; [reflexivity|].
  simpl. rewrite In_insert, IH. intuition congruence.
Qed.

Lemma length_insert {A : Type} (leb : A -> A -> bool) x l :
  List.length (insert leb x l) = S (List.length l).
Proof.
  induction l as [|z t IH]; [reflexivity|].
  simpl. destruct (leb x z); simpl; [reflexivity | rewrite IH; reflexivity].
Qed.

Lemma length_sort {A : Type} (leb : A -> A -> bool) l :
  List.length (sort leb l) = List.length l.
Proof.
  unfold sort. induction l as [|x t IH]; [reflexivity|].
  simpl. rewrite length_insert, IH. reflexivity.
Qed.

Lemma insert_descending x l :
  descending l -> ~ In x l -> descending (insert Z.geb x l).
Proof.
  unfold descending. induction 1 as [|y t S IH All]; intro NI.
  - repeat constructor.
  - simpl. destruct (Z.geb_spec x y) as [G|L].
    + constructor; [constructor; assumption|].
      assert (x > y) as Gt by (simpl in NI; lia).
      constructor; [exact Gt|].
      eapply Forall_impl; [|exact All]. simpl. intros; lia.
    + constructor.
      * apply IH. simpl in NI. tauto.
      * apply Forall_forall. intros z Hz. apply In_insert in Hz.
        destruct Hz as [->|Hz]; [lia|].
        rewrite Forall_forall in All. apply All. exact Hz.
Qed.

Lemma sorted_reverse_descending l : NoDup l -> descending (sorted_reverse l).
Proof.
  unfold sorted_reverse, sort. induction 1 as [|x t NI _ IH].
  - constructor.
  - simpl. apply insert_descending; [exact IH|].
    fold (sort Z.geb t). rewrite In_sort. exact NI.
Qed.

Lemma descending_head_max x l y : descending (x :: l) -> In y (x :: l) -> y <= x.
Proof.
  intros D H. inversion D as [|? ? _ All]; subst.
  destruct H as [->|H]; [lia|].
  rewrite Forall_forall in All. specialize (All y H). lia.
Qed.

Lemma In_study_dates d user_data :
  In d (study_dates user_data) <-> In d (map date user_data).
Proof. unfold study_dates, sorted_reverse. rewrite In_sort, In_unique. reflexivity. Qed.

Lemma study_dates_descending user_data : descending (study_dates user_data).
Proof. apply sorted_reverse_descending, NoDup_unique. Qed.

(** ** Streaks *)

Lemma is_run_unique (present : Z -> Prop) start k k' :
  Spec.is_run present start k -> Spec.is_run present start k' -> k = k'.
Proof.
  intros (K & A & B) (K' & A' & B').
  destruct (Z.lt_trichotomy k k') as [L|[E|G]]; [|exact E|].
  - exfalso. apply B. apply A'. lia.
  - exfalso. apply B'. apply A. lia.
Qed.

(** A run can only grow when days are added. *)
Lemma is_run_mono (present present' : Z -> Prop) start k k' :
  (forall d, present d -> present' d) ->
  Spec.is_run present start k -> Spec.is_run present' start k' -> k <= k'.
Proof.
  intros Sub (K & A & B) (K' & A' & B').
  destruct (Z_le_gt_dec k k') as [L|G]; [exact L|].
  exfalso. apply B'. apply Sub, A. lia.
Qed.

(** The loop of [calculate_streak] on a descending list bounded by the
    current date. *)
Lemma count_from_run dates current_date streak :
  descending dates ->
  (forall d, In d dates -> d <= current_date) ->
  let r := count_from dates current_date streak in
  streak <= r /\
  (forall i, 0 <= i < r - streak -> In (current_date - i) dates) /\
  ~ In (current_date - (r - streak)) dates.
Proof.
  intro D. revert current_date streak.
  induction D as [|d rest D IH All]; intros c s Bound; simpl.
  - split; [lia|]. split; [intros; lia | tauto].
  - rewrite Forall_forall in All.
    destruct (Z.eqb_spec d c) as [->|NE].
    + destruct (IH (c - 1) (s + 1)) as (R1 & R2 & R3).
      { intros x Hx. specialize (All x Hx). lia. }
      set (r := count_from rest (c - 1) (s + 1)) in *.
      split; [lia|]. split.
      * intros i Hi. destruct (Z.eq_dec i 0) as [->|N0].
        -- left. lia.
        -- right. replace (c - i) with (c - 1 - (i - 1)) by lia. apply R2. lia.
      * intros [E|H]; [lia|].
        apply R3. replace (c - 1 - (r - (s + 1))) with (c - (r - s)) by lia. exact H.
    + split; [lia|]. split; [intros; lia|].
      replace (c - (s - s)) with c by lia.
      intros [E|H]; [congruence|].
      specialize (All c H). specialize (Bound d (or_introl eq_refl)). lia.
Qed.

(** The loop of [_calculate_streak_for_date] on the dates below the
    current one. *)
Lemma count_back_run dates current_date streak :
  descending dates ->
  (forall d, In d dates -> d < current_date) ->
  let r := count_back dates current_date streak in
  streak <= r /\
  (forall i, 1 <= i <= r - streak -> In (current_date - i) dates) /\
  ~ In (current_date - (r - streak) - 1) dates.
Proof.
  intro D. revert current_date streak.
  induction D as [|d rest D IH All]; intros c s Bound; simpl.
  - split; [lia|]. split; [intros; lia | tauto].
  - rewrite Forall_forall in All.
    destruct (Z.eqb_spec d (c - 1)) as [->|NE].
    + destruct (IH (c - 1) (s + 1)) as (R1 & R2 & R3).
      { intros x Hx. specialize (All x Hx). lia. }
      set (r := count_back rest (c - 1) (s + 1)) in *.
      split; [lia|]. split.
      * intros i Hi. destruct (Z.eq_dec i 1) as [->|N1].
        -- left. lia.
        -- right. replace (c - i) with (c - 1 - (i - 1)) by lia. apply R2. lia.
      * intros [E|H]; [lia|].
        apply R3. replace (c - 1 - (r - (s + 1)) - 1) with (c - (r - s) - 1) by lia.
        exact H.
    + split; [lia|]. split; [intros; lia|].
      replace (c - (s - s) - 1) with (c - 1) by lia.
      intros [E|H]; [congruence|].
      specialize (All _ H). specialize (Bound d (or_introl eq_refl)). lia.
Qed.

Lemma In_dates_upto user_data target d :
  In d (map date (filter (fun s => date s <=? target) user_data))
  <-> studied user_data d /\ d <= target.
Proof.
  unfold studied. rewrite !in_map_iff. split.
  - intros (s & <- & H). apply filter_In in H. destruct H as [H1 H2].
    apply Z.leb_le in H2. split; [exists s; tauto | exact H2].
  - intros ((s & <- & H) & L). exists s. split; [reflexivity|].
    apply filter_In. split; [exact H | apply Z.leb_le; exact L].
Qed.

(** The streak as of a date is the run of studied days ending there. *)
Lemma _calculate_streak_for_date_run user_data target :
  Spec.is_run (studied user_data) target (_calculate_streak_for_date user_data target).
Proof.
  unfold _calculate_streak_for_date.
  set (upto := filter (fun s => date s <=? target) user_data).
  fold (study_dates upto).
  pose proof (study_dates_descending upto) as D.
  assert (forall d, In d (study_dates upto) <-> studied user_data d /\ d <= target) as Mem.
  { intro d. rewrite In_study_dates. apply In_dates_upto. }
  destruct (study_dates upto) as [|first rest] eqn:E.
  - split; [lia|]. split; [intros; lia|].
    replace (target - 0) with target by lia.
    intro H. destruct (proj2 (Mem target)) as []. split; [exact H | lia].
  - assert (first <= target) as FL by (apply (Mem first); left; reflexivity).
    destruct (Z.eqb_spec first target) as [->|NE]; simpl.
    + inversion D as [|? ? D' All]; subst.
      rewrite Forall_forall in All.
      destruct (count_back_run rest target 1 D') as (R1 & R2 & R3).
      { intros d Hd. specialize (All d Hd). lia. }
      set (r := count_back rest target 1) in *.
      split; [lia|]. split.
      * intros i Hi. destruct (Z.eq_dec i 0) as [->|N0].
        -- replace (target - 0) with target by lia.
           apply (Mem target). left. reflexivity.
        -- apply (Mem (target - i)). right. apply R2. lia.
      * intro H. apply R3.
        assert (In (target - r) (target :: rest)) as [X|X]
          by (apply Mem; split; [exact H | lia]); [lia|].
        replace (target - (r - 1) - 1) with (target - r) by lia. exact X.
    + split; [lia|]. split; [intros; lia|].
      replace (target - 0) with target by lia. intro H.
      assert (In target (first :: rest)) as X by (apply Mem; split; [exact H | lia]).
      pose proof (descending_head_max _ _ _ D X). lia.
Qed.

Lemma _calculate_streak_for_date_nonneg user_data target :
  0 <= _calculate_streak_for_date user_data target.
Proof. destruct (_calculate_streak_for_date_run user_data target) as [H _]. exact H. Qed.

(** Logging more sessions never lowers the streak as of any date. *)
Lemma _calculate_streak_for_date_mono user_data more target :
  _calculate_streak_for_date user_data target
  <= _calculate_streak_for_date (user_data ++ more) target.
Proof.
  eapply is_run_mono; [| apply _calculate_streak_for_date_run
                       | apply _calculate_streak_for_date_run].
  unfold studied. intros d H. rewrite map_app. apply in_or_app. left. exact H.
Qed.

Lemma study_dates_nonempty s user_data : study_dates (s :: user_data) <> [].
Proof.
  intro E. assert (In (date s) (study_dates (s :: user_data))) as H
    by (apply In_study_dates; left; reflexivity).
  rewrite E in H. exact H.
Qed.

(** When no session is dated after [today], [calculate_streak] computes
    the streak of Section 8. *)
Lemma calculate_streak_no_future user_data today :
  (forall d, studied user_data d -> d <= today) ->
  Spec.is_streak (studied user_data) today (calculate_streak user_data today).
Proof.
  intro NoFuture. unfold calculate_streak.
  destruct user_data as [|s0 rest]; [left; unfold studied; simpl; tauto|].
  fold (study_dates (s0 :: rest)).
  pose proof (study_dates_descending (s0 :: rest)) as D.
  pose proof (study_dates_nonempty s0 rest) as NE.
  assert (forall d, In d (study_dates (s0 :: rest)) <-> studied (s0 :: rest) d) as Mem
    by (intro d; apply In_study_dates).
  set (user_data := s0 :: rest) in *.
  destruct (study_dates user_data) as [|most_recent others] eqn:E; [congruence|].
  assert (most_recent <= today) as ML
    by (apply NoFuture, Mem; left; reflexivity).
  assert (forall d, studied user_data d -> d <= most_recent) as Max
    by (intros d H; apply (descending_head_max _ _ _ D), Mem, H).
  destruct (Z.eqb_spec most_recent today) as [->|N1].
  - right; left.
    destruct (count_from_run (today :: others) today 0 D) as (R1 & R2 & R3).
    { intros d H. apply Max, Mem, H. }
    set (r := count_from (today :: others) today 0) in *.
    split; [apply Mem; left; reflexivity|].
    split; [exact R1|]. split.
    + intros i Hi. apply Mem, R2. lia.
    + intro H. apply R3. replace (today - (r - 0)) with (today - r) by lia.
      apply Mem, H.
  - destruct (Z.eqb_spec most_recent (today - 1)) as [->|N2].
    + right; right.
      destruct (count_from_run ((today - 1) :: others) (today - 1) 0 D) as (R1 & R2 & R3).
      { intros d H. apply Max, Mem, H. }
      set (r := count_from ((today - 1) :: others) (today - 1) 0) in *.
      split; [intro H; specialize (Max _ H); lia|].
      split; [apply Mem; left; reflexivity|].
      split; [exact R1|]. split.
      * intros i Hi. apply Mem, R2. lia.
      * intro H. apply R3. replace (today - 1 - (r - 0)) with (today - 1 - r) by lia.
        apply Mem, H.
    + left. repeat split.
      * intro H. specialize (Max _ H). lia.
      * intro H. specialize (Max _ H). lia.
Qed.

Lemma is_streak_unique (present : Z -> Prop) now k k' :
  Spec.is_streak present now k -> Spec.is_streak present now k' -> k = k'.
Proof.
  intros [(A & B & E)|[(A & R)|(A & B & R)]] [(A' & B' & E')|[(A' & R')|(A' & B' & R')]];
    try tauto; try congruence; try (eapply is_run_unique; eassumption).
Qed.

(** The two streaks of Section 8, for any day [d]. *)
Lemma calculate_streak_examples d s1 s2 s3 :
  date s1 = d -> date s2 = d - 1 -> date s3 = d - 2 ->
  calculate_streak [s1; s2; s3] d = 3 /\ calculate_streak [s1; s3] d = 1.
Proof.
  intros E1 E2 E3. split.
  - eapply is_streak_unique; [apply calculate_streak_no_future|].
    + unfold studied. simpl. intros x H. lia.
    + right; left. unfold studied. simpl. split; [tauto|].
      split; [lia|]. split.
      * intros i Hi. assert (i = 0 \/ i = 1 \/ i = 2) as [-> | [-> | ->]] by lia; lia.
      * lia.
  - eapply is_streak_unique; [apply calculate_streak_no_future|].
    + unfold studied. simpl. intros x H. lia.
    + right; left. unfold studied. simpl. split; [tauto|].
      split; [lia|]. split.
      * intros i Hi. assert (i = 0) as -> by lia. lia.
      * lia.
Qed.

(** C2 at a log with a session dated after [today]: sessions on days 101
    and 100, seen from day 100.  The streak of Section 8 is 1 (day 100
    is present, day 99 is not); [calculate_streak] looks only at the most
    recent date, 101, and returns 0. *)
Theorem calculate_streak_future_date :
  let log := [mkSession 101 "Maths" "Sets" 30 3; mkSession 100 "Maths" "Sets" 30 3] in
  calculate_streak log 100 = 0 /\
  Spec.is_streak (studied log) 100 1 /\
  ~ Spec.is_streak (studied log) 100 (calculate_streak log 100).
Proof.
  intro log.
  assert (Spec.is_streak (studied log) 100 1) as S1.
  { right; left. unfold studied, log. simpl. split; [tauto|].
    split; [lia|]. split.
    - intros i Hi. assert (i = 0) as -> by lia. tauto.
    - lia. }
  split; [reflexivity|]. split; [exact S1|].
  intro S0. pose proof (is_streak_unique _ _ _ _ S0 S1) as E.
  vm_compute in E. discriminate.
Qed.

(** ** Session XP *)

Lemma bind_Some {A B : Type} (m : option A) (k : A -> option B) b :
  bind m k = Some b -> exists a, m = Some a /\ k a = Some b.
Proof. destruct m as [a|]; cbn [bind]; [eauto | discriminate]. Qed.

Lemma RN_0 : RN 0 = 0%Q.
Proof. vm_compute. reflexivity. Qed.

Lemma RN_1 : RN 1 = 1%Q.
Proof. vm_compute. reflexivity. Qed.

Lemma trunc_mono x y : (x <= y)%Q -> trunc x <= trunc y.
Proof.
  intro L. unfold trunc.
  destruct (Qle_bool 0 x) eqn:Bx, (Qle_bool 0 y) eqn:By.
  - apply Qfloor_resp_le, L.
  - apply Qle_bool_iff in Bx.
    assert (~ (0 <= y)%Q) by (intro C; apply Qle_bool_iff in C; congruence). lra.
  - apply Qle_bool_iff in By.
    assert ((x <= 0)%Q) as X.
    { destruct (Qlt_le_dec 0 x) as [C|C]; [|exact C].
      apply Qlt_le_weak, Qle_bool_iff in C. congruence. }
    apply Qceiling_resp_le in X. apply Qfloor_resp_le in By.
    change (Qceiling 0) with 0 in X. change (Qfloor 0) with 0 in By. lia.
  - apply Qceiling_resp_le, L.
Qed.

Lemma trunc_nonpos x : (x <= 0)%Q -> trunc x <= 0.
Proof. intro H. apply trunc_mono in H. exact H. Qed.


Lemma fmin_cases a b :
  ((a <= b)%Q /\ fmin a b = a) \/ ((b < a)%Q /\ fmin a b = b).
Proof.
  unfold fmin. destruct (Qle_bool a b) eqn:B.
  - left. split; [apply Qle_bool_iff; exact B | reflexivity].
  - right. split; [|reflexivity]. apply Qnot_le_lt. intro C.
    apply Qle_bool_iff in C. congruence.
Qed.


Lemma fmin_mono a b b' : (b <= b')%Q -> (fmin a b <= fmin a b')%Q.
Proof.
  intro L.
  destruct (fmin_cases a b) as [[H ->]|[H ->]],
           (fmin_cases a b') as [[H' ->]|[H' ->]]; lra.
Qed.

Lemma streak_bonus_multiplier_pos : (0 < streak_bonus_multiplier)%Q.
Proof. vm_compute. reflexivity. Qed.

Lemma lit_half_pos : (0 < lit 0.5)%Q.
Proof. vm_compute. reflexivity. Qed.

(** The bonus factor [1 + min(h, streak * m)] grows with the streak, and
    exists whenever it does for a longer streak. *)
Lemma streak_factor_mono (m h : Q) s s' f' :
  (0 < m)%Q -> (0 < h)%Q ->
  0 <= s <= s' ->
  (a <- of_int s' ;; sb <- mul a m ;; add 1 (fmin h sb)) = Some f' ->
  exists f,
    (a <- of_int s ;; sb <- mul a m ;; add 1 (fmin h sb)) = Some f
    /\ (0 <= f <= f')%Q.
Proof.
  intros Pm Ph Hs H.
  apply bind_Some in H. destruct H as (a' & Ha' & H).
  apply bind_Some in H. destruct H as (b' & Hb' & Hf').
  assert ((0 <= inject_Z s <= inject_Z s')%Q) as Qs.
  { split; [change 0%Q with (inject_Z 0)|]; rewrite <- Zle_Qle; lia. }
  assert (of_int s = Some (RN (inject_Z s))) as Ha.
  { unfold of_int in *. eapply fl_smaller; [exact Ha'|].
    rewrite !Qabs_pos by lra. lra. }
  unfold of_int in Ha'. apply fl_Some in Ha'. destruct Ha' as [-> _].
  pose proof (RN_nonneg _ (proj1 Qs)) as A0.
  pose proof (RN_mono _ _ (proj2 Qs)) as A1.
  revert A0 A1 Ha Hb'.
  generalize (RN (inject_Z s)) (RN (inject_Z s')). intros a a' A0 A1 Ha Hb'.
  assert ((0 <= a * m <= a' * m)%Q) as Qb by nra.
  assert (mul a m = Some (RN (a * m))) as Hb.
  { unfold mul in *. eapply fl_smaller; [exact Hb'|].
    rewrite !Qabs_pos by lra. lra. }
  unfold mul in Hb'. apply fl_Some in Hb'. destruct Hb' as [-> _].
  pose proof (RN_nonneg _ (proj1 Qb)) as B0.
  pose proof (RN_mono _ _ (proj2 Qb)) as B1.
  revert B0 B1 Hb Hf'.
  generalize (RN (a * m)) (RN (a' * m)). intros b b' B0 B1 Hb Hf'.
  pose proof (fmin_mono h b b' B1) as M.
  assert ((0 <= fmin h b)%Q) as M0
    by (destruct (fmin_cases h b) as [[_ ->]|[_ ->]]; lra).
  assert (add 1 (fmin h b) = Some (RN (1 + fmin h b))) as Hf.
  { unfold add in *. eapply fl_smaller; [exact Hf'|].
    rewrite !Qabs_pos by lra. lra. }
  unfold add in Hf'. apply fl_Some in Hf'. destruct Hf' as [-> _].
  exists (RN (1 + fmin h b)).
  rewrite Ha. cbn [bind]. rewrite Hb. cbn [bind]. split; [exact Hf|].
  split; [apply RN_nonneg; lra | apply RN_mono; lra].
Qed.

Lemma session_product_eq d c s :
  session_product d c s
  = f <- (a <- of_int s ;; sb <- mul a streak_bonus_multiplier ;;
          add 1 (fmin (lit 0.5) sb)) ;;
    b <- of_int (d * base_xp_per_minute) ;;
    t <- mul b (get confidence_multiplier c (lit 1.0)) ;;
    mul t f.
Proof.
  unfold session_product.
  destruct (of_int s) as [a|]; cbn [bind]; [|reflexivity].
  destruct (mul a streak_bonus_multiplier) as [sb|]; cbn [bind]; [|reflexivity].
  destruct (of_int (d * base_xp_per_minute)) as [b|]; cbn [bind].
  - destruct (mul b _) as [t|]; cbn [bind]; [reflexivity|].
    destruct (add 1 _); reflexivity.
  - destruct (add 1 _); reflexivity.
Qed.

(** A longer streak never lowers the XP of a session, and the XP exists
    whenever it does for the longer streak. *)
Lemma calculate_session_xp_mono d c s s' v' :
  0 <= s <= s' ->
  calculate_session_xp d c s' = Some v' ->
  exists v, calculate_session_xp d c s = Some v /\ 5 <= v <= v'.
Proof.
  intros Hs H. unfold calculate_session_xp in *.
  apply bind_Some in H. destruct H as (p' & Hp' & Hv'). injection Hv' as <-.
  rewrite session_product_eq in *.
  apply bind_Some in Hp'. destruct Hp' as (f' & Hf' & Hp').
  destruct (streak_factor_mono _ _ s s' f' streak_bonus_multiplier_pos lit_half_pos
              Hs Hf') as (f & Hf & F).
  rewrite Hf. cbn [bind].
  apply bind_Some in Hp'. destruct Hp' as (b & Hb & Hp').
  apply bind_Some in Hp'. destruct Hp' as (t & Ht & Hp').
  rewrite Hb. cbn [bind]. rewrite Ht. cbn [bind].
  assert ((Qabs (t * f) <= Qabs (t * f'))%Q) as AB.
  { rewrite !Qabs_Qmult. rewrite (Qabs_pos f), (Qabs_pos f') by lra.
    pose proof (Qabs_nonneg t). nra. }
  assert (mul t f = Some (RN (t * f))) as Hp
    by (unfold mul in *; eapply fl_smaller; [exact Hp' | exact AB]).
  unfold mul in Hp'. apply fl_Some in Hp'. destruct Hp' as [-> _].
  rewrite Hp. cbn [bind]. eexists. split; [reflexivity|]. split; [lia|].
  destruct (Qlt_le_dec t 0) as [N|P].
  - assert ((t * f <= 0)%Q) as X by nra. assert ((t * f' <= 0)%Q) as X' by nra.
    apply RN_mono in X, X'. rewrite RN_0 in X, X'.
    apply trunc_nonpos in X, X'. lia.
  - assert ((t * f <= t * f')%Q) as X by nra.
    apply RN_mono, trunc_mono in X. lia.
Qed.

Lemma calculate_session_xp_min d c s v :
  calculate_session_xp d c s = Some v -> 5 <= v.
Proof.
  unfold calculate_session_xp. intro H.
  apply bind_Some in H. destruct H as (p & _ & H). injection H as <-. lia.
Qed.

(** ** Total XP *)

Lemma total_xp_loop_app user_data rows more total_xp :
  total_xp_loop user_data (rows ++ more) total_xp
  = m <- total_xp_loop user_data rows total_xp ;; total_xp_loop user_data more m.
Proof.
  revert total_xp. induction rows as [|r rows IH]; intro total_xp; [reflexivity|].
  cbn [app total_xp_loop].
  destruct (calculate_session_xp _ _ _) as [v|]; cbn [bind]; [apply IH | reflexivity].
Qed.

Lemma total_xp_loop_ge user_data rows total_xp b :
  total_xp_loop user_data rows total_xp = Some b -> total_xp <= b.
Proof.
  revert total_xp. induction rows as [|r rows IH]; intros total_xp H; cbn [total_xp_loop app] in H.
  - injection H as <-. lia.
  - apply bind_Some in H. destruct H as (v & Hv & H).
    apply calculate_session_xp_min in Hv. apply IH in H. lia.
Qed.

(** The loop over the same rows, with streaks taken from a larger log and
    a larger running total, ends at least as high. *)
Lemma total_xp_loop_mono user_data user_data' rows total_xp total_xp' b :
  (forall d, _calculate_streak_for_date user_data d
             <= _calculate_streak_for_date user_data' d) ->
  total_xp <= total_xp' ->
  total_xp_loop user_data' rows total_xp' = Some b ->
  exists a, total_xp_loop user_data rows total_xp = Some a /\ a <= b.
Proof.
  intro Streaks. revert total_xp total_xp'.
  induction rows as [|r rows IH]; intros total_xp total_xp' L H; cbn [total_xp_loop] in *.
  - injection H as <-. eauto.
  - apply bind_Some in H. destruct H as (v' & Hv' & H).
    destruct (calculate_session_xp_mono _ _ _ _ _
                (conj (_calculate_streak_for_date_nonneg user_data (date r))
                      (Streaks (date r))) Hv') as (v & Hv & V).
    rewrite Hv. cbn [bind]. eapply IH; [|exact H]. lia.
Qed.

(** C3: when the total XP of an extended log exists, so does the total XP
    of the original log, and neither the total, nor the level, nor the
    streak as of any date is higher on the original log.  The extension is
    any sequence of appended sessions. *)
Theorem calculate_total_xp_append_monotone (user_data more : list session) (b : Z) :
  calculate_total_xp (user_data ++ more) = Some b ->
  exists a,
    calculate_total_xp user_data = Some a /\
    a <= b /\
    get_level a <= get_level b /\
    (forall target,
        _calculate_streak_for_date user_data target
        <= _calculate_streak_for_date (user_data ++ more) target).
Proof.
  intro H.
  assert (exists a, calculate_total_xp user_data = Some a /\ a <= b) as (a & Ha & L).
  { destruct user_data as [|s rest].
    - exists 0. split; [reflexivity|]. cbn [total_xp_loop app] in H.
      destruct more as [|m more]; [injection H as <-; lia|].
      unfold calculate_total_xp in H. apply total_xp_loop_ge in H. exact H.
    - unfold calculate_total_xp in *.
      change ((s :: rest) ++ more) with (s :: (rest ++ more)) in H.
      change (s :: (rest ++ more)) with ((s :: rest) ++ more) in H.
      set (log := s :: rest) in *.
      assert (total_xp_loop (log ++ more) (log ++ more) 0 = Some b) as H'
        by (destruct (log ++ more) eqn:E; [discriminate | exact H]).
      rewrite total_xp_loop_app in H'.
      apply bind_Some in H'. destruct H' as (m & Hm & Hb).
      apply total_xp_loop_ge in Hb.
      destruct (total_xp_loop_mono log (log ++ more) log 0 0 m) as (a & Ha & L);
        [intro d; apply _calculate_streak_for_date_mono | lia | exact Hm |].
      exists a. split; [exact Ha | lia]. }
  exists a. split; [exact Ha|]. split; [exact L|].
  split; [apply get_level_mono; exact L|].
  intro target. apply _calculate_streak_for_date_mono.
Qed.

Lemma calculate_total_xp_append_monotone_witness :
  let log := [mkSession 10 "Maths" "Sets" 30 3; mkSession 11 "Maths" "Sets" 45 2] in
  let more := [mkSession 12 "Physics" "Waves" 60 4; mkSession 9 "Maths" "Sets" 20 5] in
  calculate_total_xp (log ++ more) = Some 437 /\
  exists a, calculate_total_xp log = Some a /\ a <= 437.
Proof.
  intros log more.
  assert (calculate_total_xp (log ++ more) = Some 437) as H by (vm_compute; reflexivity).
  split; [exact H|].
  destruct (calculate_total_xp_append_monotone log more 437 H) as (a & Ha & L & _).
  exists a. split; assumption.
Defined.



(** ** Level progress *)

Lemma finite_0 : (Qabs (RN 0) < pow2 1024)%Q.
Proof. vm_compute. reflexivity. Qed.

Lemma finite_1 : (Qabs (RN 1) < pow2 1024)%Q.
Proof. vm_compute. reflexivity. Qed.

Lemma finite_100 : (Qabs (RN 100) < pow2 1024)%Q.
Proof. vm_compute. reflexivity. Qed.

Lemma RN_100 : RN 100 = 100%Q.
Proof. vm_compute. reflexivity. Qed.

(** The float part of [get_level_progress]: [round((p / r) * 100, 1)]. *)
Lemma progress_percentage_mono (p p' r : Z) :
  0 <= p <= p' -> p' < r ->
  exists v v',
    (q <- div (inject_Z p) (inject_Z r) ;; pct <- mul q 100 ;; round1 pct) = Some v /\
    (q <- div (inject_Z p') (inject_Z r) ;; pct <- mul q 100 ;; round1 pct) = Some v' /\
    (0 <= v <= v')%Q /\ (v' <= 100)%Q.
Proof.
  intros Hp Hr.
  assert ((0 < inject_Z r)%Q) as Pr
    by (change 0%Q with (inject_Z 0); rewrite <- Zlt_Qlt; lia).
  assert (Qeq_bool (inject_Z r) 0 = false) as NZ.
  { destruct (Qeq_bool (inject_Z r) 0) eqn:B; [|reflexivity].
    apply Qeq_bool_iff in B. lra. }
  assert (forall z, 0 <= z < r -> (0 <= inject_Z z / inject_Z r <= 1)%Q) as Frac.
  { intros z Hz. split.
    - apply Qle_shift_div_l; [exact Pr|].
      rewrite Qmult_0_l. change 0%Q with (inject_Z 0). rewrite <- Zle_Qle. lia.
    - apply Qle_shift_div_r; [exact Pr|].
      rewrite Qmult_1_l. rewrite <- Zle_Qle. lia. }
  assert ((inject_Z p / inject_Z r <= inject_Z p' / inject_Z r)%Q) as Q1.
  { apply Qle_shift_div_l; [exact Pr|].
    unfold Qdiv. rewrite <- Qmult_assoc, (Qmult_comm (/ _)), Qmult_inv_r by lra.
    rewrite Qmult_1_r, <- Zle_Qle. lia. }
  destruct (Frac p ltac:(lia)) as [A0 A1]. destruct (Frac p' ltac:(lia)) as [A0' A1'].
  destruct (fl_between 0 1 _ A0 A1 finite_0 finite_1) as (D & D0 & D1).
  destruct (fl_between 0 1 _ A0' A1' finite_0 finite_1) as (D' & D0' & D1').
  pose proof (RN_mono _ _ Q1) as DM.
  rewrite RN_0 in D0, D0'. rewrite RN_1 in D1, D1'.
  revert D D' D0 D0' D1 D1' DM.
  generalize (RN (inject_Z p / inject_Z r)) (RN (inject_Z p' / inject_Z r)).
  intros q q' D D' D0 D0' D1 D1' DM.
  assert ((0 <= q * 100 <= 100)%Q) as [B0 B1] by lra.
  assert ((0 <= q' * 100 <= 100)%Q) as [B0' B1'] by lra.
  destruct (fl_between 0 100 _ B0 B1 finite_0 finite_100) as (M & M0 & M1).
  destruct (fl_between 0 100 _ B0' B1' finite_0 finite_100) as (M' & M0' & M1').
  assert ((q * 100 <= q' * 100)%Q) as Q2 by lra.
  pose proof (RN_mono _ _ Q2) as MM.
  rewrite RN_0 in M0, M0'. rewrite RN_100 in M1, M1'.
  revert M M' M0 M0' M1 M1' MM.
  generalize (RN (q * 100)) (RN (q' * 100)).
  intros c c' M M' M0 M0' M1 M1' MM.
  assert (forall z, (0 <= z <= 100)%Q ->
                    (0 <= inject_Z (rne (z * 10)) / 10 <= 100)%Q) as Dec.
  { intros z [Z0 Z1].
    assert (0 <= rne (z * 10) <= 1000) as [R0 R1].
    { split; [apply rne_ge; change (inject_Z 0) with 0%Q
             | apply rne_le; change (inject_Z 1000) with 1000%Q]; lra. }
    rewrite Zle_Qle in R0, R1.
    change (inject_Z 0) with 0%Q in R0. change (inject_Z 1000) with 1000%Q in R1.
    split; [apply Qle_shift_div_l | apply Qle_shift_div_r]; lra. }
  destruct (Dec c (conj M0 M1)) as [C0 C1]. destruct (Dec c' (conj M0' M1')) as [C0' C1'].
  destruct (fl_between 0 100 _ C0 C1 finite_0 finite_100) as (R & R0 & R1).
  destruct (fl_between 0 100 _ C0' C1' finite_0 finite_100) as (R' & R0' & R1').
  assert ((inject_Z (rne (c * 10)) / 10 <= inject_Z (rne (c' * 10)) / 10)%Q) as Q3.
  { assert (rne (c * 10) <= rne (c' * 10)) as RR by (apply rne_mono; lra).
    rewrite Zle_Qle in RR.
    apply Qle_shift_div_l; [lra|].
    unfold Qdiv. rewrite <- Qmult_assoc, (Qmult_comm (/ _)), Qmult_inv_r by lra. lra. }
  pose proof (RN_mono _ _ Q3) as RM.
  rewrite RN_0 in R0, R0'. rewrite RN_100 in R1, R1'.
  exists (RN (inject_Z (rne (c * 10)) / 10)), (RN (inject_Z (rne (c' * 10)) / 10)).
  unfold div. rewrite NZ, D, D'. cbn [bind].
  unfold mul. rewrite M, M'. cbn [bind].
  unfold round1. rewrite R, R'.
  repeat split; try reflexivity; lra.
Qed.

(** Below the maximum level, [total_xp] lies between the threshold of its
    level and the next one. *)
Lemma level_band total_xp :
  0 <= total_xp -> get_level total_xp < 21 ->
  (if get_level total_xp >? 1
   then item level_thresholds (get_level total_xp - 1) else 0) <= total_xp
  /\ total_xp < item level_thresholds (get_level total_xp).
Proof.
  intros H0 HL. unfold get_level, level_thresholds in *.
  cbn [get_level_loop] in *.
  repeat match goal with
         | |- context [total_xp <? ?t] => destruct (Z.ltb_spec total_xp t)
         end;
    simpl in *;
    repeat match goal with
           | |- context [item ?l ?i] =>
               let v := eval vm_compute in (item l i) in change (item l i) with v
           end;
    try lia; exfalso; vm_compute in HL; discriminate.
Qed.

Lemma get_level_progress_below_max total_xp :
  get_level total_xp < 21 ->
  let level := get_level total_xp in
  let current_threshold :=
    if level >? 1 then item level_thresholds (level - 1) else 0 in
  let next_threshold := item level_thresholds level in
  get_level_progress total_xp
  = (q <- div (inject_Z (total_xp - current_threshold))
              (inject_Z (next_threshold - current_threshold)) ;;
     pct <- mul q 100 ;;
     rounded <- round1 pct ;;
     Some (mkProgress level rounded (next_threshold - total_xp)
                      (Some (total_xp - current_threshold))
                      (Some (next_threshold - current_threshold)))).
Proof.
  intros HL level current_threshold next_threshold.
  unfold get_level_progress. fold level.
  change (len level_thresholds) with 21.
  destruct (Z.geb_spec level 21) as [G|_]; [unfold level in G; lia|].
  reflexivity.
Qed.

Lemma get_level_progress_at_max total_xp :
  21 <= get_level total_xp ->
  get_level_progress total_xp
  = Some (mkProgress (get_level total_xp) 100 0 None None).
Proof.
  intro HL. unfold get_level_progress.
  change (len level_thresholds) with 21.
  destruct (Z.geb_spec (get_level total_xp) 21) as [_|G]; [reflexivity | lia].
Qed.




(** ** Weakness score *)

Import MLAnalyzer.



Lemma Qeq_bool_false x : ~ (x == 0)%Q -> Qeq_bool x 0 = false.
Proof.
  intro H. destruct (Qeq_bool x 0) eqn:B; [|reflexivity].
  apply Qeq_bool_iff in B. contradiction.
Qed.







(** *** Statistics of a group of valid sessions *)

Lemma RN_5 : RN 5 = 5%Q.
Proof. vm_compute. reflexivity. Qed.















(** ** Insufficient data and recommendations *)

Lemma firstn_nonempty {A : Type} n (l : list A) :
  l <> [] -> firstn (S n) l <> [].
Proof. destruct l; [congruence | discriminate]. Qed.

Lemma fallback_nonempty (l : list string) (d : string) :
  match l with [] => [d] | _ :: _ => l end <> [].
Proof. destruct l; discriminate. Qed.

Lemma Return_firstn_nonempty (l recs : list string) n :
  Return (firstn (S n) l) = Return recs -> l <> [] -> recs <> [].
Proof.
  intros H NE. assert (firstn (S n) l = recs) as E by congruence.
  rewrite <- E. apply firstn_nonempty, NE.
Qed.

(** Whatever [_generate_recommendations] returns is not empty: when no
    rule fires the fallback message is added. *)
Lemma _generate_recommendations_nonempty weak_topics ins user_data recs :
  _generate_recommendations weak_topics ins user_data = Return recs -> recs <> [].
Proof.
  unfold _generate_recommendations.
  destruct (trend_recommendations ins) as [trend|e]; [|discriminate].
  intro H. eapply Return_firstn_nonempty; [exact H | apply fallback_nonempty].
Qed.

Section AnalysisFacts.

Variable topic_analysis : Type.
Variable prepare : list session -> result topic_analysis.
Variable identify : topic_analysis -> result (list weak_topic).
Variable ml_insights : list session -> topic_analysis -> result insights.

Lemma analysis_body_nonempty user_data weak recs :
  analysis_body topic_analysis prepare identify ml_insights user_data
  = Return (weak, recs) ->
  recs <> [].
Proof.
  unfold analysis_body.
  destruct (prepare user_data) as [stats|e]; [|discriminate].
  destruct (identify stats) as [weak_topics|e]; [|discriminate].
  destruct (ml_insights user_data stats) as [ins|e]; [|discriminate].
  destruct (_generate_recommendations weak_topics ins user_data) as [r|e] eqn:G;
    [|discriminate].
  intro H. assert (r = recs) as <- by congruence.
  eapply _generate_recommendations_nonempty, G.
Qed.

Lemma analyze_weaknesses_few_sessions user_data :
  len user_data < 5 ->
  analyze_weaknesses topic_analysis prepare identify ml_insights user_data
  = ([], ["Need more study sessions for accurate analysis."%string]).
Proof.
  intro H. unfold analyze_weaknesses.
  destruct (Z.ltb_spec (len user_data) 5) as [_|G]; [|lia].
  rewrite orb_true_r. reflexivity.
Qed.

End AnalysisFacts.

(** C10: whatever the pandas and scikit-learn stages return or raise,
    the recommendation list returned by [analyze_weaknesses] is not
    empty. *)
Theorem analyze_weaknesses_recommendations_nonempty
    (topic_analysis : Type)
    (_prepare_topic_analysis : list session -> result topic_analysis)
    (_identify_weak_topics : topic_analysis -> result (list weak_topic))
    (_generate_ml_insights : list session -> topic_analysis -> result insights)
    (user_data : list session) :
  snd (analyze_weaknesses topic_analysis _prepare_topic_analysis
         _identify_weak_topics _generate_ml_insights user_data) <> [].
Proof.
  unfold analyze_weaknesses.
  destruct ((len user_data =? 0) || (len user_data <? 5)).
  - (* too few sessions: the need-more-data message *)
    discriminate.
  - destruct (analysis_body _ _ _ _ user_data) as [[weak recs]|e] eqn:B.
    + (* the analysis returned: rules or the fallback message *)
      cbn [snd]. eapply analysis_body_nonempty, B.
    + (* an exception was caught: the error string *)
      discriminate.
Qed.

Lemma daily_spending_length expense_data :
  len (daily_spending expense_data)
  = len (unique Z.eqb (map expense_date expense_data)).
Proof.
  unfold daily_spending, len, sorted. rewrite length_map, length_sort. reflexivity.
Qed.

(** C6: too little data is answered with an empty result and a message,
    not with an exception: fewer than 5 sessions for the analysis, fewer
    than 5 expenses or fewer than 2 distinct expense dates for the
    forecast. *)
Theorem insufficient_data_is_a_normal_outcome :
  (forall (topic_analysis : Type)
          (_prepare_topic_analysis : list session -> result topic_analysis)
          (_identify_weak_topics : topic_analysis -> result (list weak_topic))
          (_generate_ml_insights : list session -> topic_analysis -> result insights)
          (user_data : list session),
      len user_data < 5 ->
      exists msg,
        analyze_weaknesses topic_analysis _prepare_topic_analysis
          _identify_weak_topics _generate_ml_insights user_data = ([], [msg])
        /\ msg <> ""%string) /\
  (forall expense_data forecast_days,
      len expense_data < 5 \/
      len (unique Z.eqb (map expense_date expense_data)) < 2 ->
      exists msg,
        forecast_spending expense_data forecast_days = Return (None, msg)
        /\ msg <> ""%string).
Proof.
  split.
  - intros ta p i g user_data H. eexists. split.
    + apply analyze_weaknesses_few_sessions. exact H.
    + discriminate.
  - intros expense_data forecast_days H. unfold forecast_spending.
    destruct (Z.ltb_spec (len expense_data) 5) as [L|G].
    + eexists. split; [reflexivity | discriminate].
    + destruct H as [H|H]; [lia|].
      rewrite daily_spending_length.
      destruct (Z.ltb_spec (len (unique Z.eqb (map expense_date expense_data))) 2)
        as [_|G2]; [|lia].
      eexists. split; [reflexivity | discriminate].
Qed.

Lemma insufficient_data_is_a_normal_outcome_witness :
  let user_data := [mkSession 1 "Maths" "Sets" 30 3] in
  let expense_data :=
    [mkExpense 7 10; mkExpense 7 20; mkExpense 7 5; mkExpense 7 1; mkExpense 7 2] in
  len user_data < 5 /\
  (len expense_data < 5 \/ len (unique Z.eqb (map expense_date expense_data)) < 2) /\
  (exists msg,
      analyze_weaknesses unit (fun _ => Return tt) (fun _ => Return [])
        (fun _ _ => Return (mkInsights None None)) user_data = ([], [msg])
      /\ msg <> ""%string) /\
  (exists msg,
      forecast_spending expense_data 30 = Return (None, msg) /\ msg <> ""%string).
Proof.
  intros user_data expense_data.
  assert (len user_data < 5) as H1 by (vm_compute; reflexivity).
  assert (len expense_data < 5 \/
          len (unique Z.eqb (map expense_date expense_data)) < 2) as H2
    by (right; vm_compute; reflexivity).
  split; [exact H1|]. split; [exact H2|]. split.
  - exact (proj1 insufficient_data_is_a_normal_outcome unit (fun _ => Return tt)
             (fun _ => Return []) (fun _ _ => Return (mkInsights None None))
             user_data H1).
  - exact (proj2 insufficient_data_is_a_normal_outcome expense_data 30 H2).
Defined.

(** ** Forecast *)







(** ** The XP computations exist on every log a frame can hold *)

Lemma RN_pow2 k : (-1074 <= k)%Z -> (RN (pow2 k) == pow2 k)%Q.
Proof.
  intro H. pose proof (RN_representable 1 k ltac:(simpl; lia) H) as E.
  assert ((inject_Z 1 * pow2 k == pow2 k)%Q) as E1 by ring.
  rewrite (RN_ext _ _ E1), E1 in E. exact E.
Qed.

(** Anything below a power of two of the finite range rounds to a finite
    value below it. *)
Lemma fl_bound_pow2 x k :
  -1074 <= k < 1024 -> (Qabs x <= pow2 k)%Q ->
  exists r, fl x = Some r /\ (Qabs r <= pow2 k)%Q.
Proof.
  intros Hk Hx. pose proof (pow2_pos k) as P.
  assert ((Qabs (RN x) <= pow2 k)%Q) as B.
  { assert ((Qabs x <= Qabs (pow2 k))%Q) as A by (rewrite (Qabs_pos (pow2 k)); lra).
    apply RN_abs_mono in A. rewrite (RN_pow2 k) in A by lia.
    rewrite (Qabs_pos (pow2 k)) in A by lra. exact A. }
  exists (RN x). split; [|exact B].
  apply fl_intro. apply Qle_lt_trans with (pow2 k); [exact B | apply pow2_lt; lia].
Qed.

Lemma inject_Z_abs_pow2 n k :
  0 <= k -> Z.abs n <= 2 ^ k -> (Qabs (inject_Z n) <= pow2 k)%Q.
Proof.
  intros Hk H. rewrite pow2_Z by exact Hk.
  apply Qabs_Qle_condition. rewrite <- inject_Z_opp, <- !Zle_Qle. lia.
Qed.

Lemma confidence_multiplier_bound c :
  (Qabs (get confidence_multiplier c (lit 1.0)) <= pow2 1)%Q.
Proof.
  unfold get, confidence_multiplier.
  destruct c as [|p|p]; try (vm_compute; discriminate).
  destruct p as [[[p|p|]|[p|p|]|]|[[p|p|]|[p|p|]|]|]; vm_compute; discriminate.
Qed.

Lemma streak_bonus_multiplier_bound : (Qabs streak_bonus_multiplier <= pow2 0)%Q.
Proof. vm_compute. discriminate. Qed.

Lemma lit_half_bound : (Qabs (lit 0.5) <= pow2 0)%Q.
Proof. vm_compute. discriminate. Qed.

Lemma Qabs_mult_pow2 x y a b :
  (Qabs x <= pow2 a)%Q -> (Qabs y <= pow2 b)%Q -> (Qabs (x * y) <= pow2 (a + b))%Q.
Proof.
  intros X Y. rewrite Qabs_Qmult, pow2_add.
  pose proof (Qabs_nonneg x). pose proof (Qabs_nonneg y).
  pose proof (pow2_pos a). pose proof (pow2_pos b). nra.
Qed.

(** A session of at most [2^62] minutes, seen with a streak of at most
    [2^62] days, has an XP value. *)
Lemma calculate_session_xp_defined d c s :
  Z.abs d <= 2 ^ 62 -> 0 <= s <= 2 ^ 62 ->
  exists v, calculate_session_xp d c s = Some v.
Proof.
  intros Hd Hs. unfold calculate_session_xp, session_product.
  destruct (fl_bound_pow2 (inject_Z s) 62) as (a & Ha & A);
    [lia | apply inject_Z_abs_pow2; lia |].
  unfold of_int at 1. rewrite Ha. cbn [bind].
  destruct (fl_bound_pow2 (a * streak_bonus_multiplier) 62) as (sb & Hsb & SB).
  { lia. }
  { apply (Qabs_mult_pow2 _ _ 62 0 A streak_bonus_multiplier_bound). }
  unfold mul at 1. rewrite Hsb. cbn [bind].
  destruct (fl_bound_pow2 (inject_Z (d * base_xp_per_minute)) 63) as (b & Hb & B);
    [lia | apply inject_Z_abs_pow2; unfold base_xp_per_minute; lia |].
  unfold of_int at 1. rewrite Hb. cbn [bind].
  destruct (fl_bound_pow2 (b * get confidence_multiplier c (lit 1.0)) 64)
    as (t & Ht & T).
  { lia. }
  { apply (Qabs_mult_pow2 _ _ 63 1 B (confidence_multiplier_bound c)). }
  unfold mul at 1. rewrite Ht. cbn [bind].
  assert ((Qabs (fmin (lit 0.5) sb) <= pow2 62)%Q) as M.
  { destruct (fmin_cases (lit 0.5) sb) as [[_ ->]|[_ ->]]; [|exact SB].
    apply Qle_trans with (pow2 0); [exact lit_half_bound | apply pow2_le; lia]. }
  destruct (fl_bound_pow2 (1 + fmin (lit 0.5) sb) 63) as (f & Hf & F).
  { lia. }
  { apply Qle_trans with (1 + Qabs (fmin (lit 0.5) sb))%Q.
    - apply Qle_trans with (Qabs 1 + Qabs (fmin (lit 0.5) sb))%Q;
        [apply Qabs_triangle | apply Qle_refl].
    - replace 63 with (62 + 1) by lia. rewrite pow2_succ.
      assert ((1 <= pow2 62)%Q) by (change 1%Q with (pow2 0); apply pow2_le; lia).
      lra. }
  unfold add at 1. rewrite Hf. cbn [bind].
  destruct (fl_bound_pow2 (t * f) 127) as (p & Hp & _).
  { lia. }
  { apply (Qabs_mult_pow2 _ _ 64 63 T F). }
  unfold mul. rewrite Hp. cbn [bind]. eexists. reflexivity.
Qed.

Lemma count_back_le dates current_date streak :
  count_back dates current_date streak <= streak + len dates.
Proof.
  unfold len. revert current_date streak.
  induction dates as [|d rest IH]; intros c s; cbn [count_back List.length]; [lia|].
  destruct (d =? c - 1); [specialize (IH d (s + 1)); lia | lia].
Qed.

Lemma length_unique_le l : (List.length (unique Z.eqb l) <= List.length l)%nat.
Proof.
  induction l as [|x t IH]; [simpl; lia|].
  cbn [unique List.length].
  pose proof (filter_length_le (fun y => negb (x =? y)) (unique Z.eqb t)). lia.
Qed.

(** A streak is never longer than the log. *)
Lemma _calculate_streak_for_date_le_len user_data target :
  _calculate_streak_for_date user_data target <= len user_data.
Proof.
  unfold _calculate_streak_for_date.
  set (upto := filter (fun s => date s <=? target) user_data).
  assert (len (sorted_reverse (unique Z.eqb (map date upto))) <= len user_data) as L.
  { unfold len, sorted_reverse. rewrite length_sort.
    pose proof (length_unique_le (map date upto)) as U. rewrite length_map in U.
    pose proof (filter_length_le (fun s => date s <=? target) user_data) as Fl.
    fold upto in Fl. lia. }
  destruct (sorted_reverse (unique Z.eqb (map date upto))) as [|first rest].
  - unfold len. lia.
  - destruct (negb (first =? target)); [unfold len; lia|].
    pose proof (count_back_le rest first 1) as C.
    unfold len in *. cbn [List.length] in L. lia.
Qed.

Lemma total_xp_loop_defined user_data rows total_xp :
  Forall (fun s => Z.abs (duration_minutes s) <= 2 ^ 62) rows ->
  len user_data <= 2 ^ 62 ->
  exists v, total_xp_loop user_data rows total_xp = Some v.
Proof.
  intros F L. revert total_xp.
  induction F as [|r rows Hr _ IH]; intro total_xp; cbn [total_xp_loop].
  - eexists. reflexivity.
  - destruct (calculate_session_xp_defined (duration_minutes r) (confidence_rating r)
                (_calculate_streak_for_date user_data (date r)) Hr) as (v & Hv).
    { split; [apply _calculate_streak_for_date_nonneg|].
      pose proof (_calculate_streak_for_date_le_len user_data (date r)). lia. }
    rewrite Hv. cbn [bind]. apply IH.
Qed.

(** The total XP exists for every log of at most [2^62] sessions of at
    most [2^62] minutes each. *)
Lemma calculate_total_xp_defined user_data :
  Forall (fun s => Z.abs (duration_minutes s) <= 2 ^ 62) user_data ->
  len user_data <= 2 ^ 62 ->
  exists v, calculate_total_xp user_data = Some v.
Proof.
  intros F L. unfold calculate_total_xp.
  destruct user_data as [|s rest] eqn:E; [eexists; reflexivity|].
  rewrite <- E in *. apply total_xp_loop_defined; assumption.
Qed.

(** ** The rounding agrees with the kernel's binary64 arithmetic

    On the operations met in the examples above, [RN] returns the number
    that Rocq's primitive floats compute. *)

Example literals_agree_with_kernel :
  Kernel.to_Q 0x1.6666666666666p-1%float = Some (lit 0.7) /\
  Kernel.to_Q 0x1.999999999999ap-4%float = Some (lit 0.1) /\
  Kernel.to_Q 0x1.4cccccccccccdp+0%float = Some (lit 1.3).
Proof. repeat split; vm_compute; reflexivity. Qed.

Example mul_agrees_with_kernel :
  Kernel.to_Q (PrimFloat.mul (Kernel.of_Z 90) 0x1.6666666666666p-1%float)
  = mul 90 (lit 0.7) /\
  Kernel.to_Q (PrimFloat.mul (Kernel.of_Z 3) 0x1.999999999999ap-4%float)
  = mul 3 (lit 0.1).
Proof. repeat split; vm_compute; reflexivity. Qed.

Example div_agrees_with_kernel :
  Kernel.to_Q (PrimFloat.div (Kernel.of_Z 1) (Kernel.of_Z 1700)) = div 1 1700 /\
  Kernel.to_Q (PrimFloat.div (Kernel.of_Z 7) (Kernel.of_Z 3)) = div 7 3 /\
  Kernel.to_Q (PrimFloat.div (Kernel.of_Z (-3)) (Kernel.of_Z 30)) = div (-3) 30.
Proof. repeat split; vm_compute; reflexivity. Qed.

Example add_agrees_with_kernel :
  Kernel.to_Q (PrimFloat.add (Kernel.of_Z 1)
                 (PrimFloat.mul (Kernel.of_Z 3) 0x1.999999999999ap-4%float))
  = (sb <- mul 3 (lit 0.1) ;; add 1 sb).
Proof. vm_compute. reflexivity. Qed.

(* ================================================================== *)
(** * Part III: further properties of the code                         *)
(* ================================================================== *)

(** ** Levels and progress *)

Lemma get_level_range total_xp : 1 <= get_level total_xp <= 21.
Proof.
  rewrite get_level_by_count. unfold Spec.level_by_count, Spec.clamp.
  change (len level_thresholds) with 21. lia.
Qed.

Lemma level_upper total_xp :
  get_level total_xp < 21 ->
  total_xp < item level_thresholds (get_level total_xp).
Proof.
  intro HL. unfold get_level, level_thresholds in *.
  cbn [get_level_loop] in *.
  repeat match goal with
         | |- context [total_xp <? ?t] => destruct (Z.ltb_spec total_xp t)
         end;
    simpl in *;
    repeat match goal with
           | |- context [item ?l ?i] =>
               let v := eval vm_compute in (item l i) in change (item l i) with v
           end;
    try lia; exfalso; vm_compute in HL; discriminate.
Qed.

Lemma next_threshold_levels level :
  1 <= level < 21 ->
  get_level (item level_thresholds level) = level + 1 /\
  get_level (item level_thresholds level - 1) = level.
Proof.
  intro H.
  assert (level = 1 \/ level = 2 \/ level = 3 \/ level = 4 \/ level = 5 \/
          level = 6 \/ level = 7 \/ level = 8 \/ level = 9 \/ level = 10 \/
          level = 11 \/ level = 12 \/ level = 13 \/ level = 14 \/ level = 15 \/
          level = 16 \/ level = 17 \/ level = 18 \/ level = 19 \/ level = 20)
    as C by lia.
  repeat (destruct C as [-> | C]; [split; vm_compute; reflexivity|]).
  subst. split; vm_compute; reflexivity.
Qed.

(** Below the maximum level, [xp_to_next] is positive and is exactly the
    XP still missing: with that many more XP the next level is reached,
    with one XP less it is not; and [current_xp + xp_to_next] is the
    width [required_xp] of the band. *)
Theorem xp_to_next_reaches_next_level (total_xp : Z) (p : level_progress) :
  get_level total_xp < 21 ->
  get_level_progress total_xp = Some p ->
  current_level p = get_level total_xp /\
  0 < xp_to_next p /\
  get_level (total_xp + xp_to_next p) = current_level p + 1 /\
  get_level (total_xp + xp_to_next p - 1) = current_level p /\
  exists cur req,
    current_xp p = Some cur /\ required_xp p = Some req /\
    cur + xp_to_next p = req.
Proof.
  intros HL H. rewrite (get_level_progress_below_max total_xp HL) in H.
  cbv zeta in H.
  apply bind_Some in H. destruct H as (q & _ & H).
  apply bind_Some in H. destruct H as (pct & _ & H).
  apply bind_Some in H. destruct H as (r & _ & H).
  injection H as <-. cbn [current_level xp_to_next current_xp required_xp].
  pose proof (level_upper total_xp HL) as U.
  pose proof (get_level_range total_xp) as R.
  destruct (next_threshold_levels (get_level total_xp) ltac:(lia)) as [N1 N2].
  set (next := item level_thresholds (get_level total_xp)) in *.
  replace (total_xp + (next - total_xp)) with next by lia.
  split; [reflexivity|]. split; [lia|]. split; [exact N1|]. split; [exact N2|].
  eexists. eexists. split; [reflexivity|]. split; [reflexivity|]. lia.
Qed.

Lemma xp_to_next_reaches_next_level_witness :
  get_level 120 < 21 /\
  exists p, get_level_progress 120 = Some p /\
            get_level (120 + xp_to_next p) = current_level p + 1.
Proof.
  assert (get_level 120 < 21) as HL by (vm_compute; reflexivity).
  split; [exact HL|].
  eexists. split; [vm_compute; reflexivity|].
  refine (proj1 (proj2 (proj2 (xp_to_next_reaches_next_level 120 _ HL _)))).
  vm_compute. reflexivity.
Defined.

(** ** Streaks *)

Lemma is_run_ext (present present' : Z -> Prop) start k :
  (forall d, present d <-> present' d) ->
  Spec.is_run present start k -> Spec.is_run present' start k.
Proof.
  intros E (K & A & B). split; [exact K|]. split.
  - intros i Hi. apply E, A, Hi.
  - intro H. apply B, E, H.
Qed.

(** The streak as of a day is one more than the streak as of the day
    before when the day has a session, and 0 when it has none. *)
Theorem streak_for_date_step (user_data : list session) (target : Z) :
  (studied user_data target ->
   _calculate_streak_for_date user_data target
   = 1 + _calculate_streak_for_date user_data (target - 1)) /\
  (~ studied user_data target ->
   _calculate_streak_for_date user_data target = 0).
Proof.
  pose proof (_calculate_streak_for_date_run user_data target) as R.
  pose proof (_calculate_streak_for_date_run user_data (target - 1)) as R1.
  split; intro H.
  - eapply is_run_unique; [exact R|].
    destruct R1 as (K & A & B).
    set (k := _calculate_streak_for_date user_data (target - 1)) in *.
    split; [lia|]. split.
    + intros i Hi. destruct (Z.eq_dec i 0) as [->|N].
      * replace (target - 0) with target by lia. exact H.
      * replace (target - i) with (target - 1 - (i - 1)) by lia. apply A. lia.
    + replace (target - (1 + k)) with (target - 1 - k) by lia. exact B.
  - eapply is_run_unique; [exact R|].
    split; [lia|]. split; [intros; lia|].
    replace (target - 0) with target by lia. exact H.
Qed.

Lemma streak_for_date_step_witness :
  let log := [mkSession 10 "Maths" "Sets" 30 3; mkSession 11 "Maths" "Sets" 45 2] in
  studied log 11 /\
  _calculate_streak_for_date log 11 = 1 + _calculate_streak_for_date log 10.
Proof.
  intro log.
  assert (studied log 11) as H by (right; left; reflexivity).
  split; [exact H|]. exact (proj1 (streak_for_date_step log 11) H).
Defined.

(** When no session is dated after [today], the current streak is the
    streak as of today if today has a session, and the streak as of
    yesterday otherwise. *)
Theorem calculate_streak_is_streak_for_date (user_data : list session) (today : Z) :
  (forall d, studied user_data d -> d <= today) ->
  (studied user_data today ->
   calculate_streak user_data today = _calculate_streak_for_date user_data today) /\
  (~ studied user_data today ->
   calculate_streak user_data today
   = _calculate_streak_for_date user_data (today - 1)).
Proof.
  intro NoFuture.
  pose proof (calculate_streak_no_future user_data today NoFuture) as S.
  pose proof (_calculate_streak_for_date_run user_data today) as R.
  pose proof (_calculate_streak_for_date_run user_data (today - 1)) as R1.
  split; intro H.
  - destruct S as [(A & _)|[(_ & Run)|(A & _)]]; try contradiction.
    eapply is_run_unique; eassumption.
  - destruct S as [(_ & B & E)|[(A & _)|(_ & _ & Run)]]; try contradiction.
    + rewrite E. eapply is_run_unique; [|exact R1].
      split; [lia|]. split; [intros; lia|].
      replace (today - 1 - 0) with (today - 1) by lia. exact B.
    + eapply is_run_unique; eassumption.
Qed.

Lemma calculate_streak_is_streak_for_date_witness :
  let log := [mkSession 10 "Maths" "Sets" 30 3; mkSession 11 "Maths" "Sets" 45 2] in
  (forall d, studied log d -> d <= 12) /\ ~ studied log 12 /\
  calculate_streak log 12 = _calculate_streak_for_date log 11.
Proof.
  intro log.
  assert (forall d, studied log d -> d <= 12) as NF
    by (unfold studied, log; simpl; intros d H; lia).
  assert (~ studied log 12) as N by (unfold studied, log; simpl; lia).
  split; [exact NF|]. split; [exact N|].
  exact (proj2 (calculate_streak_is_streak_for_date log 12 NF) N).
Defined.

Lemma descending_ext l l' :
  descending l -> descending l' -> (forall x, In x l <-> In x l') -> l = l'.
Proof.
  intro D. revert l'. induction D as [|x t D IH All]; intros l' D' E.
  - destruct l' as [|y t']; [reflexivity|].
    exfalso. apply (E y). left. reflexivity.
  - destruct D' as [|y t' D' All'].
    + exfalso. apply (E x). left. reflexivity.
    + rewrite Forall_forall in All, All'.
      assert (x = y) as ->.
      { assert (In x (y :: t')) as [Hx|Hx] by (apply E; left; reflexivity);
          [congruence|].
        assert (In y (x :: t)) as [Hy|Hy] by (apply E; left; reflexivity);
          [congruence|].
        specialize (All _ Hy). specialize (All' _ Hx). lia. }
      f_equal. apply IH; [exact D'|].
      intro z. split; intro Hz.
      * assert (In z (y :: t')) as [Q|Q] by (apply E; right; exact Hz);
          [|exact Q].
        specialize (All _ Hz). lia.
      * assert (In z (y :: t)) as [Q|Q] by (apply E; right; exact Hz);
          [|exact Q].
        specialize (All' _ Hz). lia.
Qed.

(** The current streak depends only on the set of session dates: the
    order of the rows and repeated dates do not matter. *)
Theorem calculate_streak_depends_on_date_set (user_data user_data' : list session)
    (today : Z) :
  (forall d, studied user_data d <-> studied user_data' d) ->
  calculate_streak user_data today = calculate_streak user_data' today.
Proof.
  intro E.
  assert (study_dates user_data = study_dates user_data') as SD.
  { apply descending_ext; try apply study_dates_descending.
    intro x. rewrite !In_study_dates. apply E. }
  unfold calculate_streak. fold (study_dates user_data) (study_dates user_data').
  destruct user_data as [|s r], user_data' as [|s' r']; try reflexivity.
  - exfalso. apply (E (date s')). left. reflexivity.
  - exfalso. apply (E (date s)). left. reflexivity.
  - rewrite SD. reflexivity.
Qed.

Lemma calculate_streak_depends_on_date_set_witness :
  let log := [mkSession 10 "Maths" "Sets" 30 3; mkSession 11 "Maths" "Sets" 45 2] in
  let log' := [mkSession 11 "Art" "Ink" 5 1; mkSession 10 "Art" "Ink" 5 1;
               mkSession 11 "Art" "Oil" 5 1] in
  (forall d, studied log d <-> studied log' d) /\
  calculate_streak log 11 = calculate_streak log' 11.
Proof.
  intros log log'.
  assert (forall d, studied log d <-> studied log' d) as E
    by (unfold studied, log, log'; simpl; intro d; split; intro H; lia).
  split; [exact E|]. exact (calculate_streak_depends_on_date_set log log' 11 E).
Defined.

(** ** Session and total XP *)

Lemma five_tenths : RN (5 * streak_bonus_multiplier) = lit 0.5.
Proof. vm_compute. reflexivity. Qed.

Lemma streak_factor_at_five :
  (a <- of_int 5 ;; sb <- mul a streak_bonus_multiplier ;; add 1 (fmin (lit 0.5) sb))
  = add 1 (lit 0.5).
Proof. vm_compute. reflexivity. Qed.

(** From five days on the streak bonus is the capped 0.5. *)
Lemma streak_factor_capped s :
  5 <= s <= 2 ^ 62 ->
  (a <- of_int s ;; sb <- mul a streak_bonus_multiplier ;; add 1 (fmin (lit 0.5) sb))
  = add 1 (lit 0.5).
Proof.
  intro Hs.
  destruct (fl_bound_pow2 (inject_Z s) 62) as (a & Ha & A);
    [lia | apply inject_Z_abs_pow2; lia |].
  unfold of_int. rewrite Ha. cbn [bind].
  apply fl_Some in Ha. destruct Ha as [Ea _].
  assert ((5 <= a)%Q) as A5.
  { rewrite Ea, <- RN_5. apply RN_mono.
    change 5%Q with (inject_Z 5). rewrite <- Zle_Qle. lia. }
  destruct (fl_bound_pow2 (a * streak_bonus_multiplier) 62) as (sb & Hsb & SB).
  { lia. }
  { apply (Qabs_mult_pow2 _ _ 62 0 A streak_bonus_multiplier_bound). }
  unfold mul. rewrite Hsb. cbn [bind].
  apply fl_Some in Hsb. destruct Hsb as [Esb _].
  assert ((lit 0.5 <= sb)%Q) as Cap.
  { rewrite Esb, <- five_tenths. apply RN_mono.
    pose proof streak_bonus_multiplier_pos. nra. }
  destruct (fmin_cases (lit 0.5) sb) as [[_ ->]|[C _]]; [reflexivity | lra].
Qed.

(** The streak bonus is capped: any streak from 5 days up to [2^62] days
    earns exactly the XP of a 5-day streak. *)
Theorem streak_bonus_capped_at_five_days (d c s : Z) :
  5 <= s <= 2 ^ 62 ->
  calculate_session_xp d c s = calculate_session_xp d c 5.
Proof.
  intro Hs. unfold calculate_session_xp.
  rewrite !session_product_eq.
  rewrite (streak_factor_capped s Hs), streak_factor_at_five. reflexivity.
Qed.

Lemma streak_bonus_capped_at_five_days_witness :
  5 <= 30 <= 2 ^ 62 /\ calculate_session_xp 45 4 30 = calculate_session_xp 45 4 5.
Proof.
  assert (5 <= 30 <= 2 ^ 62) as H by (split; vm_compute; discriminate).
  split; [exact H | exact (streak_bonus_capped_at_five_days 45 4 30 H)].
Defined.

(** Every appended session adds at least 5 XP to the total. *)
Theorem each_session_adds_at_least_five_xp (user_data : list session) (s : session)
    (b : Z) :
  calculate_total_xp (user_data ++ [s]) = Some b ->
  exists a, calculate_total_xp user_data = Some a /\ a + 5 <= b.
Proof.
  intro H. unfold calculate_total_xp in H.
  assert (total_xp_loop (user_data ++ [s]) (user_data ++ [s]) 0 = Some b) as H'
    by (destruct (user_data ++ [s])%list eqn:E;
        [destruct user_data; discriminate E | exact H]).
  clear H. rewrite total_xp_loop_app in H'.
  apply bind_Some in H'. destruct H' as (m & Hm & Hb).
  cbn [total_xp_loop] in Hb.
  apply bind_Some in Hb. destruct Hb as (v & Hv & Hb). injection Hb as <-.
  apply calculate_session_xp_min in Hv.
  destruct (total_xp_loop_mono user_data (user_data ++ [s]) user_data 0 0 m)
    as (a & Ha & L);
    [intro d; apply _calculate_streak_for_date_mono | lia | exact Hm |].
  exists a. split; [|lia].
  unfold calculate_total_xp. destruct user_data as [|r rest]; [|exact Ha].
  cbn [total_xp_loop] in Ha. exact Ha.
Qed.

Lemma each_session_adds_at_least_five_xp_witness :
  let log := [mkSession 10 "Maths" "Sets" 30 3; mkSession 11 "Maths" "Sets" 45 2] in
  let s := mkSession 12 "Physics" "Waves" 1 1 in
  calculate_total_xp (log ++ [s]) = Some 146 /\
  exists a, calculate_total_xp log = Some a /\ a + 5 <= 146.
Proof.
  intros log s.
  assert (calculate_total_xp (log ++ [s]) = Some 146) as H by (vm_compute; reflexivity).
  split; [exact H | exact (each_session_adds_at_least_five_xp log s 146 H)].
Defined.

Lemma _calculate_streak_for_date_ext user_data user_data' target :
  (forall d, studied user_data d <-> studied user_data' d) ->
  _calculate_streak_for_date user_data target
  = _calculate_streak_for_date user_data' target.
Proof.
  intro E. eapply is_run_unique; [|apply _calculate_streak_for_date_run].
  eapply is_run_ext; [|apply _calculate_streak_for_date_run].
  exact E.
Qed.

Lemma total_xp_loop_ext user_data user_data' rows total_xp :
  (forall d, _calculate_streak_for_date user_data d
             = _calculate_streak_for_date user_data' d) ->
  total_xp_loop user_data rows total_xp = total_xp_loop user_data' rows total_xp.
Proof.
  intro E. revert total_xp.
  induction rows as [|r rows IH]; intro total_xp; [reflexivity|].
  cbn [total_xp_loop]. rewrite E.
  destruct (calculate_session_xp _ _ _); cbn [bind]; [apply IH | reflexivity].
Qed.

Lemma total_xp_loop_perm user_data rows rows' :
  Permutation rows rows' ->
  forall total_xp,
    total_xp_loop user_data rows total_xp = total_xp_loop user_data rows' total_xp.
Proof.
  induction 1 as [|x l l' _ IH|x y l|l l' l'' _ IH1 _ IH2]; intro total_xp.
  - reflexivity.
  - cbn [total_xp_loop].
    destruct (calculate_session_xp _ _ _); cbn [bind]; [apply IH | reflexivity].
  - cbn [total_xp_loop].
    destruct (calculate_session_xp (duration_minutes y) _ _) as [vy|];
      destruct (calculate_session_xp (duration_minutes x) _ _) as [vx|];
      cbn [bind]; try reflexivity.
    replace (total_xp + vy + vx) with (total_xp + vx + vy) by lia. reflexivity.
  - rewrite IH1. apply IH2.
Qed.

(** The total XP does not depend on the order of the rows of the log. *)
Theorem calculate_total_xp_order_irrelevant (user_data user_data' : list session) :
  Permutation user_data user_data' ->
  calculate_total_xp user_data = calculate_total_xp user_data'.
Proof.
  intro P. unfold calculate_total_xp.
  destruct user_data as [|s r].
  - apply Permutation_nil in P. subst. reflexivity.
  - destruct user_data' as [|s' r'].
    + apply Permutation_sym, Permutation_nil in P. discriminate P.
    + rewrite (total_xp_loop_perm _ _ _ P).
      apply total_xp_loop_ext. intro d.
      apply _calculate_streak_for_date_ext. intro x. unfold studied.
      split; apply Permutation_in, Permutation_map;
        [exact P | apply Permutation_sym; exact P].
Qed.

Lemma calculate_total_xp_order_irrelevant_witness :
  let a := mkSession 10 "Maths" "Sets" 30 3 in
  let b := mkSession 11 "Maths" "Sets" 45 2 in
  Permutation [a; b] [b; a] /\
  calculate_total_xp [a; b] = calculate_total_xp [b; a].
Proof.
  intros a b.
  assert (Permutation [a; b] [b; a]) as P by apply perm_swap.
  split; [exact P | exact (calculate_total_xp_order_irrelevant _ _ P)].
Defined.

Lemma confidence_multiplier_pos c :
  (0 < get confidence_multiplier c (lit 1.0))%Q.
Proof.
  unfold get, confidence_multiplier.
  destruct c as [|p|p]; try (vm_compute; reflexivity).
  destruct p as [[[p|p|]|[p|p|]|]|[[p|p|]|[p|p|]|]|]; vm_compute; reflexivity.
Qed.

(** On the ratings 1 to 5 the multiplier grows with the rating. *)
Lemma confidence_multiplier_mono c c' :
  1 <= c <= c' -> c' <= 5 ->
  (get confidence_multiplier c (lit 1.0) <= get confidence_multiplier c' (lit 1.0))%Q.
Proof.
  intros H H'.
  assert (c = 1 \/ c = 2 \/ c = 3 \/ c = 4 \/ c = 5) as C by lia.
  assert (c' = 1 \/ c' = 2 \/ c' = 3 \/ c' = 4 \/ c' = 5) as C' by lia.
  destruct C as [-> | [-> | [-> | [-> | ->]]]];
    destruct C' as [-> | [-> | [-> | [-> | ->]]]];
    try lia; vm_compute; discriminate.
Qed.

Lemma streak_factor_nonneg s f :
  0 <= s ->
  (a <- of_int s ;; sb <- mul a streak_bonus_multiplier ;; add 1 (fmin (lit 0.5) sb))
  = Some f ->
  (0 <= f)%Q.
Proof.
  intros Hs H.
  destruct (streak_factor_mono _ _ s s f streak_bonus_multiplier_pos lit_half_pos
              ltac:(lia) H) as (f0 & H0 & F).
  rewrite H in H0. injection H0 as <-. lra.
Qed.

(** The product [float(n) * cb * f] grows with [n] and with [cb]. *)
Lemma product_tail_mono n n' (cb cb' f : Q) p' :
  0 <= n <= n' -> (0 <= cb <= cb')%Q -> (0 <= f)%Q ->
  (b <- of_int n' ;; t <- mul b cb' ;; mul t f) = Some p' ->
  exists p, (b <- of_int n ;; t <- mul b cb ;; mul t f) = Some p /\ (0 <= p <= p')%Q.
Proof.
  intros Hn Hc Hf H.
  apply bind_Some in H. destruct H as (b' & Hb' & H).
  apply bind_Some in H. destruct H as (t' & Ht' & Hp').
  assert ((0 <= inject_Z n <= inject_Z n')%Q) as Qn.
  { split; [change 0%Q with (inject_Z 0)|]; rewrite <- Zle_Qle; lia. }
  assert (of_int n = Some (RN (inject_Z n))) as Hb.
  { unfold of_int in *. eapply fl_smaller; [exact Hb'|].
    rewrite !Qabs_pos by lra. lra. }
  unfold of_int in Hb'. apply fl_Some in Hb'. destruct Hb' as [-> _].
  pose proof (RN_nonneg _ (proj1 Qn)) as B0.
  pose proof (RN_mono _ _ (proj2 Qn)) as B1.
  revert B0 B1 Hb Ht'.
  generalize (RN (inject_Z n)) (RN (inject_Z n')). intros b b' B0 B1 Hb Ht'.
  assert ((0 <= b * cb <= b' * cb')%Q) as Qt by nra.
  assert (mul b cb = Some (RN (b * cb))) as Ht.
  { unfold mul in *. eapply fl_smaller; [exact Ht'|].
    rewrite !Qabs_pos by lra. lra. }
  unfold mul in Ht'. apply fl_Some in Ht'. destruct Ht' as [-> _].
  pose proof (RN_nonneg _ (proj1 Qt)) as T0.
  pose proof (RN_mono _ _ (proj2 Qt)) as T1.
  revert T0 T1 Ht Hp'.
  generalize (RN (b * cb)) (RN (b' * cb')). intros t t' T0 T1 Ht Hp'.
  assert ((0 <= t * f <= t' * f)%Q) as Qp by nra.
  assert (mul t f = Some (RN (t * f))) as Hp.
  { unfold mul in *. eapply fl_smaller; [exact Hp'|].
    rewrite !Qabs_pos by lra. lra. }
  unfold mul in Hp'. apply fl_Some in Hp'. destruct Hp' as [-> _].
  exists (RN (t * f)).
  rewrite Hb. cbn [bind]. rewrite Ht. cbn [bind]. split; [exact Hp|].
  split; [apply RN_nonneg; lra | apply RN_mono; lra].
Qed.

(** A session that is no shorter and rated no lower (ratings 1 to 5, or
    the same rating) never earns less XP, at the same streak. *)
Theorem longer_or_more_confident_never_less_xp (d d' c c' s v' : Z) :
  0 <= d <= d' -> (c = c' \/ (1 <= c <= c' /\ c' <= 5)) -> 0 <= s ->
  calculate_session_xp d' c' s = Some v' ->
  exists v, calculate_session_xp d c s = Some v /\ 5 <= v <= v'.
Proof.
  intros Hd Hc Hs H. unfold calculate_session_xp in *.
  apply bind_Some in H. destruct H as (p' & Hp' & Hv'). injection Hv' as <-.
  rewrite session_product_eq in *.
  apply bind_Some in Hp'. destruct Hp' as (f & Hf & Hp').
  rewrite Hf. cbn [bind].
  pose proof (streak_factor_nonneg s f Hs Hf) as F0.
  assert ((0 <= get confidence_multiplier c (lit 1.0)
           <= get confidence_multiplier c' (lit 1.0))%Q) as Cb.
  { split; [apply Qlt_le_weak, confidence_multiplier_pos|].
    destruct Hc as [->|[Hc Hc']];
      [apply Qle_refl | apply confidence_multiplier_mono; assumption]. }
  destruct (product_tail_mono (d * base_xp_per_minute) (d' * base_xp_per_minute)
              _ _ f p' ltac:(unfold base_xp_per_minute; lia) Cb F0 Hp')
    as (p & Hp & P).
  rewrite Hp. cbn [bind]. eexists. split; [reflexivity|]. split; [lia|].
  assert (trunc p <= trunc p') by (apply trunc_mono; lra). lia.
Qed.

Lemma longer_or_more_confident_never_less_xp_witness :
  0 <= 30 <= 45 /\ (2 = 4 \/ (1 <= 2 <= 4 /\ 4 <= 5)) /\ 0 <= 3 /\
  calculate_session_xp 45 4 3 = Some 152 /\
  exists v, calculate_session_xp 30 2 3 = Some v /\ 5 <= v <= 152.
Proof.
  assert (calculate_session_xp 45 4 3 = Some 152) as H by (vm_compute; reflexivity).
  split; [lia|]. split; [right; lia|]. split; [lia|]. split; [exact H|].
  apply (longer_or_more_confident_never_less_xp 30 45 2 4 3 152);
    [lia | right; lia | lia | exact H].
Defined.

(** ** Validation *)

Import UtilsMore.

Lemma rating_in_list c :
  existsb (Z.eqb c) [1; 2; 3; 4; 5] = true <-> 1 <= c <= 5.
Proof.
  cbn [existsb].
  destruct (Z.eqb_spec c 1), (Z.eqb_spec c 2), (Z.eqb_spec c 3),
           (Z.eqb_spec c 4), (Z.eqb_spec c 5); cbn [orb]; split; intro H;
    try reflexivity; try discriminate; lia.
Qed.

(** A session is accepted (no error message) exactly when subject and
    chapter contain a character that is not whitespace, the duration is
    between 1 and 1440 minutes and the rating is one of 1 to 5. *)
Theorem validate_study_session_accepts_exactly
    (subj chap : string) (duration confidence : Z) :
  validate_study_session subj chap duration confidence = []
  <-> blank subj = false /\ blank chap = false /\
      1 <= duration <= 1440 /\ 1 <= confidence <= 5.
Proof.
  unfold validate_study_session.
  pose proof (rating_in_list confidence) as R.
  destruct (blank subj), (blank chap), (Z.leb_spec duration 0) as [L|L],
           (Z.gtb_spec duration 1440) as [G|G],
           (existsb (Z.eqb confidence) [1; 2; 3; 4; 5]);
    cbn [negb List.app]; split; intro V;
    try discriminate V;
    try (destruct V as (A & B & C & D);
         first [ discriminate A | discriminate B | lia
               | apply R in D; discriminate D ]).
  - repeat split; try lia; apply R; reflexivity.
  - reflexivity.
Qed.

Lemma RN_2880 : RN 2880 = 2880%Q.
Proof. vm_compute. reflexivity. Qed.
Lemma lit_15 : lit 1.5 = (3 # 2)%Q.
Proof. vm_compute. reflexivity. Qed.
Lemma factor_max : RN (1 + lit 0.5) = (3 # 2)%Q.
Proof. vm_compute. reflexivity. Qed.
Lemma RN_4320 : RN (2880 * (3 # 2)) = 4320%Q.
Proof. vm_compute. reflexivity. Qed.
Lemma RN_6480 : RN (4320 * (3 # 2)) = 6480%Q.
Proof. vm_compute. reflexivity. Qed.

Lemma confidence_multiplier_max c :
  (get confidence_multiplier c (lit 1.0) <= 3 # 2)%Q.
Proof.
  unfold get, confidence_multiplier.
  destruct c as [|p|p]; try (vm_compute; discriminate).
  destruct p as [[[p|p|]|[p|p|]|]|[[p|p|]|[p|p|]|]|]; vm_compute; discriminate.
Qed.

(** The product of a session of at most 1440 minutes is at most 6480. *)
Lemma session_product_upper d c s p :
  0 <= d <= 1440 -> 0 <= s ->
  session_product d c s = Some p -> (0 <= p <= 6480)%Q.
Proof.
  intros Hd Hs H. rewrite session_product_eq in H.
  apply bind_Some in H. destruct H as (f & Hf & H).
  pose proof (streak_factor_nonneg s f Hs Hf) as F0.
  assert ((f <= 3 # 2)%Q) as F1.
  { apply bind_Some in Hf. destruct Hf as (a & _ & Hf).
    apply bind_Some in Hf. destruct Hf as (sb & _ & Hf).
    unfold add in Hf. apply fl_Some in Hf. destruct Hf as [-> _].
    rewrite <- factor_max. apply RN_mono.
    destruct (fmin_cases (lit 0.5) sb) as [[_ ->]|[L ->]]; lra. }
  apply bind_Some in H. destruct H as (b & Hb & H).
  apply bind_Some in H. destruct H as (t & Ht & Hp).
  unfold of_int in Hb. apply fl_Some in Hb. destruct Hb as [Eb _].
  assert ((0 <= inject_Z (d * base_xp_per_minute) <= 2880)%Q) as [N0 N1].
  { unfold base_xp_per_minute. change 0%Q with (inject_Z 0).
    change 2880%Q with (inject_Z 2880). rewrite <- !Zle_Qle. lia. }
  assert ((0 <= b <= 2880)%Q) as [B0 B1].
  { rewrite Eb. split; [apply RN_nonneg; exact N0|].
    rewrite <- RN_2880. apply RN_mono. exact N1. }
  pose proof (confidence_multiplier_pos c) as C0.
  pose proof (confidence_multiplier_max c) as C1.
  unfold mul in Ht. apply fl_Some in Ht. destruct Ht as [Et _].
  assert ((0 <= t <= 4320)%Q) as [T0 T1].
  { rewrite Et. split; [apply RN_nonneg; nra|].
    rewrite <- RN_4320. apply RN_mono. nra. }
  unfold mul in Hp. apply fl_Some in Hp. destruct Hp as [-> _].
  split; [apply RN_nonneg; nra|].
  rewrite <- RN_6480. apply RN_mono. nra.
Qed.

Lemma validate_duration_range subj chap duration confidence :
  validate_study_session subj chap duration confidence = [] ->
  1 <= duration <= 1440.
Proof.
  unfold validate_study_session.
  destruct (blank subj), (blank chap), (Z.leb_spec duration 0) as [L|L],
           (Z.gtb_spec duration 1440) as [G|G],
           (existsb (Z.eqb confidence) [1; 2; 3; 4; 5]);
    cbn [negb List.app]; intro V; try discriminate V. lia.
Qed.

(** A session that passes validation earns between 5 and 6480 XP, at any
    streak of up to [2^62] days. *)
Theorem validated_session_xp_range
    (subj chap : string) (duration confidence streak : Z) :
  validate_study_session subj chap duration confidence = [] ->
  0 <= streak <= 2 ^ 62 ->
  exists v, calculate_session_xp duration confidence streak = Some v
            /\ 5 <= v <= 6480.
Proof.
  intros V Hs. pose proof (validate_duration_range _ _ _ _ V) as Hd.
  destruct (calculate_session_xp_defined duration confidence streak) as (v & Hv);
    [lia | exact Hs |].
  exists v. split; [exact Hv|].
  unfold calculate_session_xp in Hv.
  apply bind_Some in Hv. destruct Hv as (p & Hp & Hv). injection Hv as <-.
  destruct (session_product_upper duration confidence streak p) as [P0 P1];
    [lia | lia | exact Hp |].
  apply trunc_mono in P1. change (trunc 6480) with 6480 in P1. lia.
Qed.

Lemma validated_session_xp_range_witness :
  validate_study_session "Maths" "Sets" 1440 5 = [] /\ 0 <= 9 <= 2 ^ 62 /\
  exists v, calculate_session_xp 1440 5 9 = Some v /\ 5 <= v <= 6480.
Proof.
  assert (validate_study_session "Maths" "Sets" 1440 5 = []) as V
    by (vm_compute; reflexivity).
  assert (0 <= 9 <= 2 ^ 62) as Hs by (split; vm_compute; discriminate).
  split; [exact V|]. split; [exact Hs|].
  exact (validated_session_xp_range "Maths" "Sets" 1440 5 9 V Hs).
Defined.

(** ** Achievements *)

Import Achievements.

(** The shape of the list [check_achievements] returns on a log that is
    not empty. *)
Lemma check_achievements_shape {Quiz : Type} user_data (quiz_data : option Quiz)
    today earned :
  user_data <> [] ->
  check_achievements user_data quiz_data today = Some earned ->
  exists minutes total_hours (perfect expert : bool),
    of_int (sum_Z (map duration_minutes user_data)) = Some minutes /\
    div minutes 60 = Some total_hours /\
    earned =
      (["first_session"%string]
       ++ (if (calculate_streak user_data today >=? 7)
           then ["week_streak"%string] else [])
       ++ (if (calculate_streak user_data today >=? 30)
           then ["month_streak"%string] else [])
       ++ (if Qle_bool 100 total_hours then ["100_hours"%string] else [])
       ++ (if perfect then ["perfect_week"%string] else [])
       ++ (if expert then ["subject_expert"%string] else []))%list.
Proof.
  intros NE H. unfold check_achievements in H.
  destruct user_data as [|s r]; [congruence|].
  set (log := s :: r) in *.
  assert ((len log >=? 1) = true) as L1.
  { destruct (Z.geb_spec (len log) 1) as [_|C]; [reflexivity|].
    unfold len, log in C. cbn [List.length] in C. lia. }
  rewrite L1 in H. cbv zeta in H.
  apply bind_Some in H. destruct H as (minutes & Hm & H).
  apply bind_Some in H. destruct H as (total_hours & Hh & H).
  apply bind_Some in H. destruct H as (perfect & _ & H).
  apply bind_Some in H. destruct H as (means & _ & H).
  exists minutes, total_hours, perfect,
    (existsb (fun conf => Qle_bool 4 conf) means).
  split; [exact Hm|]. split; [exact Hh|].
  revert H.
  destruct (calculate_streak log today >=? 7),
           (calculate_streak log today >=? 30),
           (Qle_bool 100 total_hours), perfect,
           (existsb (fun conf => Qle_bool 4 conf) means);
    cbn [List.app]; intro H; congruence.
Qed.

(** On a log that is not empty, the first achievement is always
    [first_session]; [quiz_master] is never earned, whatever the quiz
    data; the streak achievements are earned exactly from 7 and from 30
    days, so a month streak comes with the week streak. *)
Theorem check_achievements_streaks_and_quiz {Quiz : Type}
    (user_data : list session) (quiz_data : option Quiz) (today : Z)
    (earned : list string) :
  user_data <> [] ->
  check_achievements user_data quiz_data today = Some earned ->
  hd_error earned = Some "first_session"%string /\
  ~ In "quiz_master"%string earned /\
  (In "week_streak"%string earned <-> 7 <= calculate_streak user_data today) /\
  (In "month_streak"%string earned <-> 30 <= calculate_streak user_data today) /\
  (In "month_streak"%string earned -> In "week_streak"%string earned).
Proof.
  intros NE H.
  destruct (check_achievements_shape user_data quiz_data today earned NE H)
    as (minutes & hours & perfect & expert & _ & _ & ->).
  destruct (Z.geb_spec (calculate_streak user_data today) 7) as [W|W];
    destruct (Z.geb_spec (calculate_streak user_data today) 30) as [M|M];
    destruct (Qle_bool 100 hours), perfect, expert;
    cbn [List.app hd_error In];
    intuition (try discriminate; try lia; auto 10).
Qed.

Lemma check_achievements_streaks_and_quiz_witness :
  let log := [mkSession 10 "Maths" "Sets" 30 3; mkSession 11 "Maths" "Sets" 45 2] in
  log <> [] /\
  check_achievements log (Some 5) 11 = Some ["first_session"%string] /\
  ~ In "quiz_master"%string ["first_session"%string].
Proof.
  intro log.
  assert (log <> []) as NE by discriminate.
  assert (check_achievements log (Some 5) 11 = Some ["first_session"%string]) as H
    by (vm_compute; reflexivity).
  split; [exact NE|]. split; [exact H|].
  exact (proj1 (proj2 (check_achievements_streaks_and_quiz log (Some 5) 11 _ NE H))).
Defined.





(** The bonus XP of a log that is not empty is at least the 25 XP of the
    first session and at most 1225 XP: the 300 XP of [quiz_master] are
    never part of it. *)
Theorem calculate_bonus_xp_range (user_data : list session) (today bonus : Z) :
  user_data <> [] ->
  calculate_bonus_xp user_data today = Some bonus ->
  25 <= bonus <= 1225.
Proof.
  intros NE H. unfold calculate_bonus_xp in H.
  apply bind_Some in H. destruct H as (earned & He & H). injection H as <-.
  destruct (check_achievements_shape user_data None today earned NE He)
    as (minutes & hours & perfect & expert & _ & _ & ->).
  destruct (calculate_streak user_data today >=? 7),
           (calculate_streak user_data today >=? 30),
           (Qle_bool 100 hours), perfect, expert;
    vm_compute; split; discriminate.
Qed.

Lemma calculate_bonus_xp_range_witness :
  let log := [mkSession 10 "Maths" "Sets" 3000 3; mkSession 11 "Maths" "Sets" 3000 2] in
  log <> [] /\ calculate_bonus_xp log 11 = Some 225 /\ 25 <= 225 <= 1225.
Proof.
  intro log.
  assert (log <> []) as NE by discriminate.
  assert (calculate_bonus_xp log 11 = Some 225) as H by (vm_compute; reflexivity).
  split; [exact NE|]. split; [exact H|].
  exact (calculate_bonus_xp_range log 11 225 NE H).
Defined.

(** ** Consistency *)








(** ** XP of a period *)






(** ** Milestones *)

Import Milestones.

Lemma get_level_max_iff total_xp : get_level total_xp < 21 <-> total_xp < 15300.
Proof.
  unfold get_level, level_thresholds. cbn [get_level_loop].
  change (len level_thresholds) with 21.
  repeat match goal with
         | |- context [total_xp <? ?t] => destruct (Z.ltb_spec total_xp t)
         end;
    simpl; lia.
Qed.

Lemma get_level_progress_defined total_xp :
  0 <= total_xp ->
  exists info,
    get_level_progress total_xp = Some info /\
    (xp_to_next info >? 0) = (total_xp <? 15300).
Proof.
  intro H0. destruct (Z_lt_ge_dec (get_level total_xp) 21) as [B|M].
  - pose proof (level_band total_xp H0 B) as [L U].
    pose proof (proj1 (get_level_max_iff total_xp) B) as X.
    rewrite (get_level_progress_below_max total_xp B). cbv zeta.
    set (cur := if get_level total_xp >? 1
                then item level_thresholds (get_level total_xp - 1) else 0) in *.
    set (next := item level_thresholds (get_level total_xp)) in *.
    destruct (progress_percentage_mono (total_xp - cur) (total_xp - cur) (next - cur))
      as (v & _ & Hv & _ & _ & _); [lia | lia |].
    apply bind_Some in Hv. destruct Hv as (q & Hq & Hv).
    apply bind_Some in Hv. destruct Hv as (pct & Hp & Hv).
    rewrite Hq. cbn [bind]. rewrite Hp. cbn [bind]. rewrite Hv. cbn [bind].
    eexists. split; [reflexivity|]. cbn [xp_to_next].
    destruct (Z.gtb_spec (next - total_xp) 0) as [_|C]; [|lia].
    destruct (Z.ltb_spec total_xp 15300) as [_|C]; [reflexivity | lia].
  - rewrite (get_level_progress_at_max total_xp) by lia.
    eexists. split; [reflexivity|]. cbn [xp_to_next].
    assert (~ total_xp < 15300) as X by (rewrite <- get_level_max_iff; lia).
    destruct (Z.ltb_spec total_xp 15300) as [C|_]; [lia | reflexivity].
Qed.

Lemma streak_progress_defined (current_streak : Z) (days : Q) :
  0 <= current_streak < 30 -> (1 <= days)%Q ->
  exists q pct,
    div (inject_Z current_streak) days = Some q /\ mul q 100 = Some pct.
Proof.
  intros Hs Hd.
  assert ((0 <= inject_Z current_streak <= 32)%Q) as B.
  { split.
    - change 0%Q with (inject_Z 0). rewrite <- Zle_Qle. lia.
    - change 32%Q with (inject_Z 32). rewrite <- Zle_Qle. lia. }
  assert ((0 <= inject_Z current_streak / days <= pow2 5)%Q) as Rq.
  { change (pow2 5) with 32%Q. split.
    - apply Qle_shift_div_l; [lra|]. lra.
    - apply Qle_shift_div_r; [lra|]. nra. }
  unfold div. rewrite (Qeq_bool_false days) by lra.
  destruct (fl_bound_pow2 (inject_Z current_streak / days) 5 ltac:(lia))
    as (q & Eq & Bq).
  { rewrite Qabs_pos; lra. }
  assert ((0 <= q)%Q) as Q0.
  { apply fl_Some in Eq. destruct Eq as [-> _]. apply RN_nonneg. lra. }
  rewrite Qabs_pos in Bq by exact Q0.
  unfold mul.
  destruct (fl_bound_pow2 (q * 100) 12 ltac:(lia)) as (c & Ec & _).
  { rewrite Qabs_pos by nra. change (pow2 5) with 32%Q in Bq.
    change (pow2 12) with 4096%Q. nra. }
  exists q, c. split; [exact Eq | exact Ec].
Qed.

(** Which milestones are offered: a level milestone exactly below the
    15300 XP of the last level, a streak milestone exactly below a
    30-day streak (the 7-day one below 7 days, the 30-day one from
    there); at most two, so the final slice never drops one. *)
Theorem get_next_milestone_kinds (total_xp current_streak : Z) :
  0 <= total_xp -> 0 <= current_streak ->
  exists milestones,
    get_next_milestone total_xp current_streak = Some milestones /\
    map milestone_type milestones
    = ((if total_xp <? 15300 then ["level"%string] else [])
       ++ (if current_streak <? 30 then ["streak"%string] else []))%list /\
    (forall m, In m milestones -> milestone_type m = "streak"%string ->
       description m = (if current_streak <? 7 then "7-day study streak"%string
                        else "30-day study streak"%string)).
Proof.
  intros Hx Hs.
  destruct (get_level_progress_defined total_xp Hx) as (info & Hi & Hn).
  unfold get_next_milestone. rewrite Hi. cbn [bind]. cbv zeta. rewrite Hn.
  destruct (Z.ltb_spec current_streak 7) as [S7|S7].
  - destruct (streak_progress_defined current_streak 7 ltac:(lia) ltac:(lra))
      as (q & pct & Eq & Ep).
    rewrite Eq. cbn [bind]. rewrite Ep. cbn [bind].
    destruct (Z.ltb_spec current_streak 30) as [_|C]; [|lia].
    eexists. split; [reflexivity|].
    destruct (total_xp <? 15300); cbn [List.app firstn map milestone_type];
      (split; [reflexivity|]); intros m I T; cbn [In] in I;
      repeat (destruct I as [<-|I]; [first [discriminate T | reflexivity]|]);
      destruct I.
  - destruct (Z.ltb_spec current_streak 30) as [S30|S30].
    + destruct (streak_progress_defined current_streak 30 ltac:(lia) ltac:(lra))
        as (q & pct & Eq & Ep).
      rewrite Eq. cbn [bind]. rewrite Ep. cbn [bind].
      eexists. split; [reflexivity|].
      destruct (total_xp <? 15300); cbn [List.app firstn map milestone_type];
        (split; [reflexivity|]); intros m I T; cbn [In] in I;
        repeat (destruct I as [<-|I]; [first [discriminate T | reflexivity]|]);
        destruct I.
    + eexists. split; [reflexivity|].
      destruct (total_xp <? 15300); cbn [List.app firstn map milestone_type];
        (split; [reflexivity|]); intros m I T; cbn [In] in I;
        repeat (destruct I as [<-|I]; [first [discriminate T | reflexivity]|]);
        destruct I.
Qed.

Lemma get_next_milestone_kinds_witness :
  0 <= 120 /\ 0 <= 3 /\
  exists milestones,
    get_next_milestone 120 3 = Some milestones /\
    map milestone_type milestones = ["level"%string; "streak"%string].
Proof.
  assert (0 <= 120) as Hx by lia. assert (0 <= 3) as Hs by lia.
  split; [exact Hx|]. split; [exact Hs|].
  destruct (get_next_milestone_kinds 120 3 Hx Hs) as (ms & H & K & _).
  exists ms. split; [exact H | exact K].
Defined.

(** ** The forecast frame *)















(** With no forecast day to predict the call does not return a frame of
    the history alone: on accepted data it ends in an exception. *)
Theorem forecast_spending_needs_a_forecast_day
    (expense_data : list expense) (forecast_days : Z) :
  5 <= len expense_data ->
  2 <= len (unique Z.eqb (map expense_date expense_data)) ->
  forecast_days <= 0 ->
  exists e, forecast_spending expense_data forecast_days = Raise e.
Proof.
  intros H5 H2 H0. unfold forecast_spending.
  destruct (Z.ltb_spec (len expense_data) 5) as [C|_]; [lia|].
  rewrite daily_spending_length.
  destruct (Z.ltb_spec (len (unique Z.eqb (map expense_date expense_data))) 2)
    as [C|_]; [lia|].
  cbv zeta. unfold arange.
  replace (Z.to_nat forecast_days) with 0%nat by lia.
  cbn [seq map rev]. eexists. reflexivity.
Qed.

Lemma forecast_spending_needs_a_forecast_day_witness :
  let expense_data :=
    [mkExpense 7 10; mkExpense 9 20; mkExpense 7 5; mkExpense 12 1; mkExpense 9 2] in
  5 <= len expense_data /\
  2 <= len (unique Z.eqb (map expense_date expense_data)) /\
  0 <= 0 /\
  exists e, forecast_spending expense_data 0 = Raise e.
Proof.
  intro expense_data.
  assert (5 <= len expense_data) as H5 by (vm_compute; discriminate).
  assert (2 <= len (unique Z.eqb (map expense_date expense_data))) as H2
    by (vm_compute; discriminate).
  assert (0 <= 0) as H0 by lia.
  split; [exact H5|]. split; [exact H2|]. split; [exact H0|].
  exact (forecast_spending_needs_a_forecast_day expense_data 0 H5 H2 H0).
Defined.

(** ** Clusters *)

(** Where [_perform_clustering] is called, on the features of at least
    three topics, it asks for 2 to 4 clusters and for fewer clusters
    than there are topics. *)
Theorem n_clusters_fits_topics (features_len : Z) :
  3 <= features_len ->
  2 <= Clustering.n_clusters features_len <= 4 /\
  Clustering.n_clusters features_len < features_len.
Proof.
  intro H. unfold Clustering.n_clusters.
  pose proof (Z.div_mod features_len 2 ltac:(lia)) as D.
  pose proof (Z.mod_pos_bound features_len 2 ltac:(lia)) as M.
  lia.
Qed.

Lemma n_clusters_fits_topics_witness :
  3 <= 7 /\ Clustering.n_clusters 7 = 3 /\ Clustering.n_clusters 7 < 7.
Proof.
  assert (3 <= 7) as H by lia.
  split; [exact H|]. split; [reflexivity|].
  exact (proj2 (n_clusters_fits_topics 7 H)).
Defined.
